(** * energy_back: chat sessions, message store and relay

    A shallow embedding of the chat-session subsystem of the backend
    ([messages/models.py], [messages/schemas.py], [messages/router.py],
    [get_message/schemas.py], [get_message/crud.py],
    [get_message/router.py]) and the properties of its session manager,
    message relay, listing queries and expiry sweep.

    Conventions of the embedding:
    - a Python [str] is the list of its code points;
    - a naive UTC [datetime] is a number of microseconds since
      1970-01-01T00:00:00, a [timedelta] a number of microseconds; one
      request reads the clock as one instant [now];
    - a table is the list of its rows in the order the engine scans them;
      a [select] without [order_by] returns rows in that order;
    - an [AsyncSession] is a pair of stores: what is committed and what the
      open transaction sees; an object loaded or refreshed from it keeps
      the column values it was loaded with;
    - handlers are computations in a state-and-exception monad over the
      database session and the log of calls made on the broker client. *)

From Stdlib Require Import ZArith NArith List String Ascii Bool Lia.
From Stdlib Require Import DecimalString Permutation Sorted.
Import ListNotations.

Set Implicit Arguments.

(* ===================================================================== *)
(** ** Python values: strings, JSON, datetimes                            *)
(* ===================================================================== *)

Module Py.

Definition pystr : Type := list N.

(** An ASCII literal of the source as a Python string. *)
Definition str (s : string) : pystr :=
  map N_of_ascii (list_ascii_of_string s).

Fixpoint str_eqb (a b : pystr) : bool :=
  match a, b with
  | [], [] => true
  | x :: a', y :: b' => N.eqb x y && str_eqb a' b'
  | _, _ => false
  end.

(** [str.isspace] on one code point (the table behind [str.strip()]). *)
Definition isspace (c : N) : bool :=
  ((9 <=? c) && (c <=? 13) || (28 <=? c) && (c <=? 32)
   || (c =? 133) || (c =? 160) || (c =? 5760)
   || (8192 <=? c) && (c <=? 8202)
   || (c =? 8232) || (c =? 8233) || (c =? 8239) || (c =? 8287)
   || (c =? 12288))%N.

Fixpoint lstrip (s : pystr) : pystr :=
  match s with
  | [] => []
  | c :: s' => if isspace c then lstrip s' else s
  end.

Definition rstrip (s : pystr) : pystr := rev (lstrip (rev s)).

(** [value.strip()] *)
Definition strip (s : pystr) : pystr := rstrip (lstrip s).

(** Truthiness of a string: [not s] holds of the empty string only. *)
Definition truthy (s : pystr) : bool :=
  match s with [] => false | _ :: _ => true end.

(** *** JSON: [json.dumps] with its default arguments *)

Inductive pyval : Type :=
| VInt (z : Z)
| VStr (s : pystr)
| VNone.

(** A [dict] with string keys, in insertion order. *)
Definition dict : Type := list (pystr * pyval).

Fixpoint dict_get (d : dict) (k : pystr) : option pyval :=
  match d with
  | [] => None
  | (k', v) :: d' => if str_eqb k' k then Some v else dict_get d' k
  end.

Definition hex_digit (n : N) : N :=
  (if n <? 10 then 48 + n else 87 + n)%N.

(** [\uXXXX] with four lower-case hexadecimal digits. *)
Definition u_escape (n : N) : pystr :=
  [92; 117;
   hex_digit ((n / 4096) mod 16); hex_digit ((n / 256) mod 16);
   hex_digit ((n / 16) mod 16); hex_digit (n mod 16)]%N.

(** One character under [ensure_ascii=True]. *)
Definition escape_char (c : N) : pystr :=
  (if c =? 92 then [92; 92]
   else if c =? 34 then [92; 34]
   else if c =? 8 then [92; 98]
   else if c =? 12 then [92; 102]
   else if c =? 10 then [92; 110]
   else if c =? 13 then [92; 114]
   else if c =? 9 then [92; 116]
   else if (32 <=? c) && (c <=? 126) then [c]
   else if c <? 65536 then u_escape c
   else
     let v := c - 65536 in
     u_escape (N.lor 55296 (N.land (N.shiftr v 10) 1023))
     ++ u_escape (N.lor 56320 (N.land v 1023)))%N.

Definition encode_basestring_ascii (s : pystr) : pystr :=
  [34%N] ++ flat_map escape_char s ++ [34%N].

Definition dumps_val (v : pyval) : pystr :=
  match v with
  | VInt z => str (NilZero.string_of_int (Z.to_int z))
  | VStr s => encode_basestring_ascii s
  | VNone => str "null"
  end.

Definition dumps_item (kv : pystr * pyval) : pystr :=
  encode_basestring_ascii (fst kv) ++ str ": " ++ dumps_val (snd kv).

Fixpoint join (sep : pystr) (parts : list pystr) : pystr :=
  match parts with
  | [] => []
  | [p] => p
  | p :: rest => p ++ sep ++ join sep rest
  end.

(** [json.dumps(d)] of a flat dictionary. *)
Definition dumps (d : dict) : pystr :=
  str "{" ++ join (str ", ") (map dumps_item d) ++ str "}".

(** *** [str.encode()]: UTF-8, refusing lone surrogates *)

Definition utf8_char (c : N) : option (list N) :=
  (if c <? 128 then Some [c]
   else if c <? 2048 then Some [192 + c / 64; 128 + c mod 64]
   else if (55296 <=? c) && (c <=? 57343) then None
   else if c <? 65536 then
     Some [224 + c / 4096; 128 + (c / 64) mod 64; 128 + c mod 64]
   else if c <? 1114112 then
     Some [240 + c / 262144; 128 + (c / 4096) mod 64;
           128 + (c / 64) mod 64; 128 + c mod 64]
   else None)%N.

Fixpoint encode (s : pystr) : option (list N) :=
  match s with
  | [] => Some []
  | c :: s' =>
      match utf8_char c, encode s' with
      | Some b, Some bs => Some (b ++ bs)
      | _, _ => None
      end
  end.

(** Text made of ASCII characters only. *)
Definition ascii_only (s : pystr) : Prop := Forall (fun c => (c < 128)%N) s.

(** *** [datetime] and [timedelta] *)

Definition datetime : Type := Z.
Definition timedelta : Type := Z.

Definition timedelta_of (hours minutes : Z) : timedelta :=
  ((hours * 60 + minutes) * 60 * 1000000)%Z.

(** Zero-padded decimal of a non-negative number, [w] digits. *)
Fixpoint pad (w : nat) (n : Z) : pystr :=
  match w with
  | O => []
  | S w' => pad w' (n / 10) ++ [(48 + Z.to_N (n mod 10))%N]
  end.

(** Proleptic Gregorian date of a day number counted from 1970-01-01. *)
Definition civil_from_days (z : Z) : Z * Z * Z :=
  (let z := z + 719468 in
   let era := z / 146097 in
   let doe := z - era * 146097 in
   let yoe := (doe - doe / 1460 + doe / 36524 - doe / 146096) / 365 in
   let doy := doe - (365 * yoe + yoe / 4 - yoe / 100) in
   let mp := (5 * doy + 2) / 153 in
   let d := doy - (153 * mp + 2) / 5 + 1 in
   let m := if mp <? 10 then mp + 3 else mp - 9 in
   let y := yoe + era * 400 + (if m <=? 2 then 1 else 0) in
   (y, m, d))%Z.

(** [dt.isoformat()]: [YYYY-MM-DDTHH:MM:SS], then [.ffffff] when the
    microsecond is not zero. *)
Definition isoformat (t : datetime) : pystr :=
  (let us := t mod 1000000 in
   let secs := t / 1000000 in
   let sod := secs mod 86400 in
   let '(y, m, d) := civil_from_days (secs / 86400) in
   pad 4 y ++ str "-" ++ pad 2 m ++ str "-" ++ pad 2 d ++ str "T"
   ++ pad 2 (sod / 3600) ++ str ":" ++ pad 2 ((sod / 60) mod 60)
   ++ str ":" ++ pad 2 (sod mod 60)
   ++ (if us =? 0 then [] else str "." ++ pad 6 us))%Z.

End Py.

Import Py.
Open Scope Z_scope.

(* ===================================================================== *)
(** ** The relational schema ([messages/models.py])                       *)
(* ===================================================================== *)

Inductive MessageRole : Type := LEAD | BOT | MANAGER.

Definition role_value (r : MessageRole) : pystr :=
  match r with
  | LEAD => str "LEAD"
  | BOT => str "BOT"
  | MANAGER => str "MANAGER"
  end.

(** Rows carry an [option] where a handler of the repository leaves the
    column out of an insert ([sessions.user_id], [messages.role]), where
    the column is nullable and set by hand ([leads.first_name],
    [leads.last_name]) or where the code tests the attribute for [None]
    ([messages.created_at]). *)

Module Message.
Record t : Type := mk {
  id : Z;
  text : pystr;
  sender : pystr;
  role : option MessageRole;
  session_id : pystr;
  created_at : option datetime;
  is_sent_to_rabbitmq : bool;
  is_processed_by_bot : bool
}.
End Message.

Module Session.
Record t : Type := mk {
  id : Z;
  session_id : pystr;
  user_id : option pystr;
  created_at : datetime;
  last_active : datetime
}.
End Session.

Module Lead.
Record t : Type := mk {
  id : Z;
  first_name : option pystr;
  last_name : option pystr;
  session_id : pystr
}.
End Lead.

(** The three tables, each in the engine's scan order. *)
Record Store : Type := {
  sessions : list Session.t;
  leads : list Lead.t;
  messages : list Message.t
}.

Definition empty_store : Store :=
  {| sessions := []; leads := []; messages := [] |}.

Inductive DeliveryMode : Type := NOT_PERSISTENT | PERSISTENT.

(** Calls made on the broker client ([aio_pika]). *)
Inductive BrokerCall : Type :=
| ConnectRobust (url : pystr)
| OpenChannel
| SetQos (prefetch_count : Z)
| DeclareQueue (name : pystr) (durable : bool)
| Publish (body : list N) (delivery_mode : DeliveryMode) (routing_key : pystr)
| CloseConnection.

Inductive exn : Type :=
| HTTPException (status_code : Z)
| ValueError
| KeyError
| IntegrityError
| MultipleResultsFound
| UnicodeEncodeError
| AMQPError (failed : BrokerCall).

(** *** Statements on a store *)

Module Sql.

(** A fresh primary key: above every key of the table. *)
Definition next_pk (ids : list Z) : Z := 1 + fold_right Z.max 0 ids.

(** The [where] clauses of the queries. *)
Definition session_is (session_id : pystr) (s : Session.t) : bool :=
  str_eqb (Session.session_id s) session_id.

Definition user_is (user_id : pystr) (s : Session.t) : bool :=
  match Session.user_id s with
  | Some u => str_eqb u user_id
  | None => false
  end.

Definition in_session (session_id : pystr) (m : Message.t) : bool :=
  str_eqb (Message.session_id m) session_id.

Definition lead_of (session_id : pystr) (l : Lead.t) : bool :=
  str_eqb (Lead.session_id l) session_id.

Definition session_exists (st : Store) (sid : pystr) : bool :=
  existsb (session_is sid) (sessions st).

(** [INSERT INTO sessions]: [user_id] is [nullable=False], [session_id] is
    [unique=True]. *)
Definition insert_session (st : Store) (sid : pystr) (uid : option pystr)
    (created last : datetime) : exn + (Session.t * Store) :=
  match uid with
  | None => inl IntegrityError
  | Some _ =>
      if session_exists st sid then inl IntegrityError
      else
        let row := Session.mk (next_pk (map Session.id (sessions st)))
                              sid uid created last in
        inr (row, {| sessions := sessions st ++ [row];
                     leads := leads st;
                     messages := messages st |})
  end.

(** [INSERT INTO messages]: [role] is [nullable=False], [session_id]
    references [sessions.session_id]; the two flags take their default
    [False]. *)
Definition insert_message (st : Store) (txt snd : pystr)
    (r : option MessageRole) (sid : pystr) (created : datetime)
    : exn + (Message.t * Store) :=
  match r with
  | None => inl IntegrityError
  | Some _ =>
      if session_exists st sid then
        let row := Message.mk (next_pk (map Message.id (messages st)))
                              txt snd r sid (Some created) false false in
        inr (row, {| sessions := sessions st;
                     leads := leads st;
                     messages := messages st ++ [row] |})
      else inl IntegrityError
  end.

(** [INSERT INTO leads]: [session_id] references [sessions.session_id]. *)
Definition insert_lead (st : Store) (first last : option pystr)
    (sid : pystr) : exn + (Lead.t * Store) :=
  if session_exists st sid then
    let row := Lead.mk (next_pk (map Lead.id (leads st))) first last sid in
    inr (row, {| sessions := sessions st;
                 leads := leads st ++ [row];
                 messages := messages st |})
  else inl IntegrityError.

(** Attribute assignment on a loaded [Session] object: an [UPDATE] of the
    row with its primary key. *)
Definition set_last_active_pk (pk : Z) (now : datetime) (st : Store) : Store :=
  {| sessions :=
       map (fun s => if Session.id s =? pk
                     then Session.mk (Session.id s) (Session.session_id s)
                            (Session.user_id s) (Session.created_at s) now
                     else s) (sessions st);
     leads := leads st;
     messages := messages st |}.

(** [update(Session).where(Session.session_id == sid).values(last_active=now)] *)
Definition update_last_active_where (sid : pystr) (now : datetime)
    (st : Store) : Store :=
  {| sessions :=
       map (fun s => if session_is sid s
                     then Session.mk (Session.id s) (Session.session_id s)
                            (Session.user_id s) (Session.created_at s) now
                     else s) (sessions st);
     leads := leads st;
     messages := messages st |}.

(** Attribute assignment [message.is_sent_to_rabbitmq = b] on a loaded
    [Message] object. *)
Definition set_sent_pk (pk : Z) (b : bool) (st : Store) : Store :=
  {| sessions := sessions st;
     leads := leads st;
     messages :=
       map (fun m => if Message.id m =? pk
                     then Message.mk (Message.id m) (Message.text m)
                            (Message.sender m) (Message.role m)
                            (Message.session_id m) (Message.created_at m)
                            b (Message.is_processed_by_bot m)
                     else m) (messages st) |}.

(** [db.delete(session)]: the row goes, and with it (relationship cascade
    [all, delete-orphan], foreign keys [ondelete=CASCADE]) every message
    and lead of its [session_id]. *)
Definition delete_session (s : Session.t) (st : Store) : Store :=
  {| sessions :=
       filter (fun r => negb (Session.id r =? Session.id s)) (sessions st);
     leads :=
       filter (fun l => negb (lead_of (Session.session_id s) l)) (leads st);
     messages :=
       filter (fun m => negb (in_session (Session.session_id s) m))
              (messages st) |}.

(** [order_by(key.asc())]: a stable insertion sort. *)
Fixpoint insert_by {A : Type} (key : A -> Z) (x : A) (l : list A) : list A :=
  match l with
  | [] => [x]
  | y :: l' => if key x <? key y then x :: l else y :: insert_by key x l'
  end.

Fixpoint order_by {A : Type} (key : A -> Z) (l : list A) : list A :=
  match l with
  | [] => []
  | x :: l' => insert_by key x (order_by key l')
  end.

(** [order_by] for a key that may be NULL or that runs downwards: a stable
    insertion sort by the strict order [before]. *)
Fixpoint insert_with {A : Type} (before : A -> A -> bool) (x : A)
    (l : list A) : list A :=
  match l with
  | [] => [x]
  | y :: l' => if before x y then x :: l else y :: insert_with before x l'
  end.

Fixpoint order_with {A : Type} (before : A -> A -> bool) (l : list A)
    : list A :=
  match l with
  | [] => []
  | x :: l' => insert_with before x (order_with before l')
  end.

(** [Message.created_at.asc()] as PostgreSQL orders it: a NULL comes after
    every value. *)
Definition created_before (a b : Message.t) : bool :=
  match Message.created_at a, Message.created_at b with
  | Some x, Some y => x <? y
  | Some _, None => true
  | None, _ => false
  end.

(** [desc(Message.id)] *)
Definition id_after (a b : Message.t) : bool := Message.id b <? Message.id a.

(** [Message.role.in_(["LEAD", "BOT"])]: a NULL role is in no list. *)
Definition role_in_lead_bot (m : Message.t) : bool :=
  match Message.role m with
  | Some LEAD | Some BOT => true
  | _ => false
  end.

End Sql.

(* ===================================================================== *)
(** ** Database session, broker log and the handler monad                 *)
(* ===================================================================== *)

(** An [AsyncSession]: the committed database and the open transaction's
    view of it. *)
Record DbSession : Type := {
  committed : Store;
  pending : Store
}.

(** A session as the request dependency hands it out: nothing pending. *)
Definition fresh_session (st : Store) : DbSession :=
  {| committed := st; pending := st |}.

Record World : Type := {
  db : DbSession;
  broker : list BrokerCall
}.

Definition world_of (st : Store) : World :=
  {| db := fresh_session st; broker := [] |}.

Inductive outcome (A : Type) : Type :=
| Return (a : A)
| Raise (e : exn).

Arguments Return {A} a.
Arguments Raise {A} e.

Definition M (A : Type) : Type := World -> outcome A * World.

Definition ret {A : Type} (a : A) : M A := fun w => (Return a, w).

Definition raise {A : Type} (e : exn) : M A := fun w => (Raise e, w).

Definition bind {A B : Type} (m : M A) (k : A -> M B) : M B :=
  fun w =>
    match m w with
    | (Return a, w') => k a w'
    | (Raise e, w') => (Raise e, w')
    end.

(** [try: m  except Exception as e: h e] *)
Definition try_except {A : Type} (m : M A) (h : exn -> M A) : M A :=
  fun w =>
    match m w with
    | (Return a, w') => (Return a, w')
    | (Raise e, w') => h e w'
    end.

Declare Scope handler_scope.
Delimit Scope handler_scope with handler.
Notation "x <- m ;; k" := (bind m (fun x => k))
  (at level 61, m at next level, right associativity) : handler_scope.
Notation "m ;;; k" := (bind m (fun _ => k))
  (at level 61, right associativity) : handler_scope.
Open Scope handler_scope.

(** Reading the transaction's view. *)
Definition query {A : Type} (f : Store -> A) : M A :=
  fun w => (Return (f (pending (db w))), w).

(** A statement that changes the view. *)
Definition execute (f : Store -> Store) : M unit :=
  fun w =>
    (Return tt,
     {| db := {| committed := committed (db w);
                 pending := f (pending (db w)) |};
        broker := broker w |}).

(** [await db.commit()] *)
Definition commit : M unit :=
  fun w =>
    (Return tt,
     {| db := {| committed := pending (db w); pending := pending (db w) |};
        broker := broker w |}).

(** [await db.rollback()]: the view falls back to what is committed. *)
Definition rollback : M unit :=
  fun w =>
    (Return tt,
     {| db := {| committed := committed (db w); pending := committed (db w) |};
        broker := broker w |}).

(** An [INSERT]: on a constraint violation the engine raises and the open
    transaction is lost. *)
Definition insert {R : Type} (f : Store -> exn + (R * Store)) : M R :=
  fun w =>
    match f (pending (db w)) with
    | inr (row, st') =>
        (Return row,
         {| db := {| committed := committed (db w); pending := st' |};
            broker := broker w |})
    | inl e =>
        (Raise e,
         {| db := {| committed := committed (db w);
                     pending := committed (db w) |};
            broker := broker w |})
    end.

(** A call on the broker client: logged, then it succeeds or raises as
    the broker decides ([amqp c = true]: the call goes through). *)
Definition call (amqp : BrokerCall -> bool) (c : BrokerCall) : M unit :=
  fun w =>
    let w' := {| db := db w; broker := broker w ++ [c] |} in
    if amqp c then (Return tt, w') else (Raise (AMQPError c), w').

(** [async with connection: body]: the connection is closed on the way
    out, whether [body] returned or raised. *)
Definition async_with_connection {A : Type} (body : M A) : M A :=
  fun w =>
    match body w with
    | (r, w') => (r, {| db := db w'; broker := broker w' ++ [CloseConnection] |})
    end.

Fixpoint for_each {A : Type} (l : list A) (body : A -> M unit) : M unit :=
  match l with
  | [] => ret tt
  | x :: l' => body x ;;; for_each l' body
  end.

(* ===================================================================== *)
(** ** [messages/schemas.py]                                              *)
(* ===================================================================== *)

Module MessagesSchemas.

Definition role_of_value (v : pystr) : option MessageRole :=
  if str_eqb v (str "LEAD") then Some LEAD
  else if str_eqb v (str "BOT") then Some BOT
  else if str_eqb v (str "MANAGER") then Some MANAGER
  else None.

Record MessageCreate : Type := {
  text : pystr;
  sender : pystr;
  role : MessageRole;
  session_id : option pystr
}.

(** The request body before validation. *)
Record MessageCreateBody : Type := {
  body_text : pystr;
  body_sender : pystr;
  body_role : pystr;
  body_session_id : option pystr
}.

(** [MessageCreate.validate_text] *)
Definition validate_text (value : pystr) : exn + pystr :=
  if negb (truthy (strip value)) then inl ValueError else inr value.

(** Building the model from a request body: the role is converted to the
    enumeration and the field validator runs on the text. *)
Definition model_validate (b : MessageCreateBody) : exn + MessageCreate :=
  match role_of_value (body_role b), validate_text (body_text b) with
  | Some r, inr t =>
      inr {| text := t; sender := body_sender b; role := r;
             session_id := body_session_id b |}
  | _, _ => inl ValueError
  end.

Record MessageResponse : Type := {
  message : pystr;
  response_session_id : pystr
}.

End MessagesSchemas.

(* ===================================================================== *)
(** ** [messages/router.py]                                               *)
(* ===================================================================== *)

Module MessagesRouter.

Import MessagesSchemas.

(** [timedelta(minutes=2)] *)
Definition SESSION_LIFETIME : timedelta := timedelta_of 0 2.

Definition create_new_session (user_id : pystr) (now : datetime)
    (uuid4 : pystr) : M pystr :=
  new_session <-
    insert (fun st => Sql.insert_session st uuid4 (Some user_id) now now) ;;
  commit ;;;
  ret (Session.session_id new_session).

(** The body runs inside [async with db.begin()]; the transaction it
    opens is the one the [commit] of either branch closes. *)
Definition get_or_create_session (user_id : pystr) (now : datetime)
    (uuid4 : pystr) : M pystr :=
  existing_session <- query (fun st => find (Sql.user_is user_id) (sessions st)) ;;
  match existing_session with
  | Some s =>
      if now - Session.last_active s >? SESSION_LIFETIME then
        create_new_session user_id now uuid4
      else
        execute (Sql.set_last_active_pk (Session.id s) now) ;;;
        commit ;;;
        ret (Session.session_id s)
  | None => create_new_session user_id now uuid4
  end.

(** The rows behind [get_message_history]:
    [select(Message).filter(...).order_by(Message.id.asc())]. *)
Definition history_rows (session_id : pystr) (st : Store) : list Message.t :=
  Sql.order_by Message.id (filter (Sql.in_session session_id) (messages st)).

(** [get_message_history]: the [text] and [sender] of each row. *)
Definition get_message_history (session_id : pystr)
    : M (list (pystr * pystr)) :=
  msgs <- query (history_rows session_id) ;;
  match msgs with
  | [] => raise (HTTPException 404)
  | _ => ret (map (fun msg => (Message.text msg, Message.sender msg)) msgs)
  end.

Definition RABBITMQ_URL : pystr := str "amqp://localhost/".
Definition QUEUE_NAME : pystr := str "message_queue".

(** [select(Message).where(Message.id == v)], first row. *)
Definition message_by_id (v : pyval) (st : Store) : option Message.t :=
  match v with
  | VInt i => find (fun m => Message.id m =? i) (messages st)
  | _ => None
  end.

Definition send_to_rabbitmq (amqp : BrokerCall -> bool)
    (message_data : dict) : M unit :=
  try_except
    (match dict_get message_data (str "id") with
     | None => raise KeyError
     | Some v =>
         message <- query (message_by_id v) ;;
         match message with
         | None => ret tt
         | Some m =>
             execute (Sql.set_sent_pk (Message.id m) true) ;;;
             commit ;;;
             call amqp (ConnectRobust RABBITMQ_URL) ;;;
             async_with_connection
               (call amqp OpenChannel ;;;
                call amqp (SetQos 1) ;;;
                call amqp (DeclareQueue QUEUE_NAME true) ;;;
                let message_body := dumps message_data in
                match encode message_body with
                | None => raise UnicodeEncodeError
                | Some body => call amqp (Publish body PERSISTENT QUEUE_NAME)
                end)
         end
     end)
    (fun e => rollback ;;; raise e).

(** The dictionary [receive_message] hands to the relay. *)
Definition message_data_for_rabbitmq (new_message : Message.t) : dict :=
  [ (str "session_id", VStr (Message.session_id new_message));
    (str "id", VInt (Message.id new_message));
    (str "text", VStr (Message.text new_message));
    (str "sender", VStr (Message.sender new_message));
    (str "created_at",
     match Message.created_at new_message with
     | Some t => VStr (isoformat t)
     | None => VNone
     end) ].

(** The reply text of [receive_message], a Russian sentence given by its
    code points. *)
Definition ACCEPTED : pystr :=
  [1057; 1086; 1086; 1073; 1097; 1077; 1085; 1080; 1077; 32;
   1087; 1088; 1080; 1085; 1103; 1090; 1086]%N.

Definition receive_message (amqp : BrokerCall -> bool)
    (message_data : MessageCreate) (now : datetime) : M MessageResponse :=
  match session_id message_data with
  | None => raise (HTTPException 400)
  | Some sid =>
      if negb (truthy sid) then raise (HTTPException 400)
      else
        session <- query (fun st => find (Sql.session_is sid) (sessions st)) ;;
        match session with
        | None => raise (HTTPException 404)
        | Some _ =>
            new_message <-
              insert (fun st =>
                        Sql.insert_message st (text message_data)
                          (sender message_data) (Some (role message_data))
                          sid now) ;;
            commit ;;;
            (if negb (str_eqb (role_value (role message_data)) (str "BOT"))
             then send_to_rabbitmq amqp (message_data_for_rabbitmq new_message)
             else ret tt) ;;;
            ret {| message := ACCEPTED; response_session_id := sid |}
        end
  end.

(** The route [POST /] with its body validated against [MessageCreate]
    before the handler is entered. *)
Definition post_message (amqp : BrokerCall -> bool)
    (body : MessageCreateBody) (now : datetime) : M MessageResponse :=
  match model_validate body with
  | inl e => raise e
  | inr message_data => receive_message amqp message_data now
  end.

Definition cleanup_expired_sessions (now : datetime) : M unit :=
  let cutoff_time := now - SESSION_LIFETIME in
  expired_sessions <-
    query (fun st =>
             filter (fun s => Session.last_active s <? cutoff_time)
                    (sessions st)) ;;
  for_each expired_sessions
    (fun session => execute (Sql.delete_session session) ;;; commit).

(** The text shown for a chat without messages, a Russian sentence given
    by its code points. *)
Definition NO_MESSAGES_YET : pystr :=
  [1057; 1086; 1086; 1073; 1097; 1077; 1085; 1080; 1081; 32;
   1087; 1086; 1082; 1072; 32; 1085; 1077; 1090]%N.

(** [l[-1]] of a list that may be empty. *)
Fixpoint last_row {A : Type} (l : list A) : option A :=
  match l with
  | [] => None
  | [x] => Some x
  | _ :: l' => last_row l'
  end.

(** [session.messages] and [session.lead] as [selectinload] fills them:
    the rows of the session's [session_id] as scanned, and the first lead
    among them. *)
Definition session_messages (st : Store) (session : Session.t)
    : list Message.t :=
  filter (Sql.in_session (Session.session_id session)) (messages st).

Definition session_lead (st : Store) (session : Session.t) : option Lead.t :=
  find (Sql.lead_of (Session.session_id session)) (leads st).

Module Chat.
Record t : Type := mk {
  session_id : pystr;
  first_name : option pystr;
  last_name : option pystr;
  last_message : pystr;
  last_message_time : option pystr
}.
End Chat.

(** One element of the answer of [get_chats_with_last_message]. *)
Definition chat_of (st : Store) (session : Session.t) : Chat.t :=
  let msgs := session_messages st session in
  let last_message :=
    match last_row msgs with
    | Some m => Message.text m
    | None => NO_MESSAGES_YET
    end in
  let last_message_time :=
    match last_row msgs with
    | Some m => Message.created_at m
    | None => None
    end in
  Chat.mk (Session.session_id session)
          (match session_lead st session with
           | Some l => Lead.first_name l
           | None => None
           end)
          (match session_lead st session with
           | Some l => Lead.last_name l
           | None => None
           end)
          last_message
          (match last_message_time with
           | Some t => Some (isoformat t)
           | None => None
           end).

Definition get_chats_with_last_message : M (list Chat.t) :=
  st <- query (fun st => st) ;;
  match sessions st with
  | [] => raise (HTTPException 404)
  | _ => ret (map (chat_of st) (sessions st))
  end.

Module MessageView.
Record t : Type := mk {
  id : Z;
  text : pystr;
  sender : pystr;
  role : option pystr;
  created_at : option pystr
}.
End MessageView.

(** One element of the answer of [get_lead_and_bot_messages]. *)
Definition view_of (msg : Message.t) : MessageView.t :=
  MessageView.mk (Message.id msg) (Message.text msg) (Message.sender msg)
                 (match Message.role msg with
                  | Some r => Some (role_value r)
                  | None => None
                  end)
                 (match Message.created_at msg with
                  | Some t => Some (isoformat t)
                  | None => None
                  end).

(** The rows behind [get_lead_and_bot_messages]. *)
Definition lead_and_bot_rows (session_id : pystr) (st : Store)
    : list Message.t :=
  Sql.order_with Sql.created_before
    (filter (fun m => Sql.in_session session_id m && Sql.role_in_lead_bot m)
            (messages st)).

Definition get_lead_and_bot_messages (session_id : pystr)
    : M (pystr * list MessageView.t) :=
  msgs <- query (lead_and_bot_rows session_id) ;;
  match msgs with
  | [] => raise (HTTPException 404)
  | _ => ret (session_id, map view_of msgs)
  end.

End MessagesRouter.

(* ===================================================================== *)
(** ** [get_message/schemas.py], [get_message/crud.py]                    *)
(* ===================================================================== *)

Module GetMessageSchemas.

(** Three plain [str] fields, no validator. *)
Record MessageCreate : Type := {
  text : pystr;
  sender : pystr;
  session_id : pystr
}.

Definition model_validate (t s sid : pystr) : exn + MessageCreate :=
  inr {| text := t; sender := s; session_id := sid |}.

End GetMessageSchemas.

Module Crud.

Import GetMessageSchemas.

(** Placeholder names of an auto-created lead, given by their code
    points. *)
Definition NEW_FIRST_NAME : pystr := [1053; 1086; 1074; 1099; 1081]%N.
Definition NEW_LAST_NAME : pystr := [1051; 1080; 1076]%N.

(** [scalar_one_or_none()] *)
Definition scalar_one_or_none {A : Type} (rows : list A) : M (option A) :=
  match rows with
  | [] => ret None
  | [r] => ret (Some r)
  | _ => raise MultipleResultsFound
  end.

Definition get_session (session_id : pystr) : M (option Session.t) :=
  rows <- query (fun st =>
                   filter (Sql.session_is session_id) (sessions st)) ;;
  scalar_one_or_none rows.

Definition update_last_active (session_id : pystr) (now : datetime) : M unit :=
  execute (Sql.update_last_active_where session_id now) ;;;
  commit.

(** The insert names [session_id], [created_at] and [last_active] only. *)
Definition create_session (now : datetime) (uuid4 : pystr) : M pystr :=
  insert (fun st => Sql.insert_session st uuid4 None now now) ;;;
  commit ;;;
  ret uuid4.

Definition get_lead_by_session (session_id : pystr) : M (option Lead.t) :=
  try_except
    (query (fun st => find (Sql.lead_of session_id) (leads st)))
    (fun _ => ret None).

Definition create_lead (session_id : pystr) : M Lead.t :=
  new_lead <-
    insert (fun st =>
              Sql.insert_lead st (Some NEW_FIRST_NAME) (Some NEW_LAST_NAME)
                              session_id) ;;
  commit ;;;
  ret new_lead.

(** [select(Message).where(Message.session_id == session_id)], no
    [order_by]. *)
Definition get_messages_for_user (session_id : pystr) : M (list Message.t) :=
  query (fun st =>
           filter (Sql.in_session session_id) (messages st)).

Definition get_or_create_session (session_id : pystr) (now : datetime)
    (uuid4 : pystr) : M pystr :=
  session <- get_session session_id ;;
  match session with
  | Some _ => update_last_active session_id now ;;; ret session_id
  | None => create_session now uuid4
  end.

(** [create_message] answers with the stored message and its lead. *)
Definition create_message (message : MessageCreate) (now : datetime)
    (uuid4 : pystr) : M (Message.t * Lead.t) :=
  session <- get_session (session_id message) ;;
  sid <- match session with
         | None => create_session now uuid4
         | Some _ => ret (session_id message)
         end ;;
  update_last_active sid now ;;;
  lead <- get_lead_by_session sid ;;
  lead <- match lead with
          | None => create_lead sid
          | Some l => ret l
          end ;;
  db_message <-
    insert (fun st =>
              Sql.insert_message st (text message) (sender message) None
                                 sid now) ;;
  commit ;;;
  ret (db_message, lead).

End Crud.

(* ===================================================================== *)
(** ** [get_message/router.py]                                            *)
(* ===================================================================== *)

Module GetMessageRouter.

(** [timedelta(hours=1)] *)
Definition SESSION_TIMEOUT : timedelta := timedelta_of 1 0.

Definition get_or_create_session (session_id : pystr) (now : datetime)
    (uuid4 : pystr) : M pystr :=
  session <- Crud.get_session session_id ;;
  match session with
  | Some s =>
      if now - Session.last_active s <? SESSION_TIMEOUT then
        Crud.update_last_active session_id now ;;;
        ret session_id
      else Crud.create_session now uuid4
  | None => Crud.create_session now uuid4
  end.

Module LeadRow.
Record t : Type := mk {
  session_id : pystr;
  first_name : option pystr;
  last_name : option pystr;
  last_message : pystr
}.
End LeadRow.

(** [select(Session.session_id, Lead.first_name, Lead.last_name)
    .outerjoin(Lead, Lead.session_id == Session.session_id)]: a session is
    paired with each of its leads, or once with NULLs when it has none. *)
Definition outerjoin_leads (st : Store)
    : list (pystr * option pystr * option pystr) :=
  flat_map
    (fun s =>
       match filter (Sql.lead_of (Session.session_id s)) (leads st) with
       | [] => [(Session.session_id s, None, None)]
       | ls =>
           map (fun l => (Session.session_id s, Lead.first_name l,
                          Lead.last_name l)) ls
       end)
    (sessions st).

(** [select(Message.text).where(...).order_by(desc(Message.id)).limit(1)]
    read with [scalar()]. *)
Definition last_message_scalar (session_id : pystr) (st : Store)
    : option pystr :=
  match Sql.order_with Sql.id_after
          (filter (Sql.in_session session_id) (messages st)) with
  | [] => None
  | m :: _ => Some (Message.text m)
  end.

(** [last_message or placeholder] *)
Definition or_placeholder (last_message : option pystr) : pystr :=
  match last_message with
  | Some t => if truthy t then t else MessagesRouter.NO_MESSAGES_YET
  | None => MessagesRouter.NO_MESSAGES_YET
  end.

Definition get_leads_with_last_message : M (list LeadRow.t) :=
  try_except
    (st <- query (fun st => st) ;;
     ret (map (fun session =>
                 match session with
                 | (sid, first, last) =>
                     LeadRow.mk sid first last
                       (or_placeholder (last_message_scalar sid st))
                 end)
              (outerjoin_leads st)))
    (fun _ => raise (HTTPException 500)).

End GetMessageRouter.

(* ===================================================================== *)
(** ** [rabbit/producer.py]                                               *)
(* ===================================================================== *)

Module RabbitProducer.

(** Calls of [send_message] on the broker client. *)
Inductive Call : Type :=
| Connect (url : pystr)
| Channel
| DeclarePassive (name : pystr)
| PublishTo (body : list N) (delivery_mode : DeliveryMode)
            (routing_key : pystr)
| Close.

(** What a call ends in: it returns, or it raises
    [aio_pika.exceptions.ChannelClosed] or some other exception. *)
Inductive Answer : Type := Done | ChannelClosed | Failed.

Inductive raised : Type :=
| RaisedChannelClosed
| RaisedOther
| RaisedUnicodeEncodeError.

Inductive result (A : Type) : Type :=
| Returned (a : A)
| Raised (e : raised).

Arguments Returned {A} a.
Arguments Raised {A} e.

(** A computation over the log of calls. *)
Definition P (A : Type) : Type := list Call -> result A * list Call.

Definition pret {A : Type} (a : A) : P A := fun log => (Returned a, log).

Definition praise {A : Type} (e : raised) : P A := fun log => (Raised e, log).

Definition pbind {A B : Type} (m : P A) (k : A -> P B) : P B :=
  fun log =>
    match m log with
    | (Returned a, log') => k a log'
    | (Raised e, log') => (Raised e, log')
    end.

Definition pcall (amqp : Call -> Answer) (c : Call) : P unit :=
  fun log =>
    match amqp c with
    | Done => (Returned tt, log ++ [c])
    | ChannelClosed => (Raised RaisedChannelClosed, log ++ [c])
    | Failed => (Raised RaisedOther, log ++ [c])
    end.

(** [try: m  except ChannelClosed: h] *)
Definition except_channel_closed {A : Type} (m : P A) (h : P A) : P A :=
  fun log =>
    match m log with
    | (Raised RaisedChannelClosed, log') => h log'
    | r => r
    end.

(** [try: m  except Exception: h] *)
Definition except_exception {A : Type} (m : P A) (h : P A) : P A :=
  fun log =>
    match m log with
    | (Raised _, log') => h log'
    | r => r
    end.

(** [async with connection: body] *)
Definition with_connection {A : Type} (body : P A) : P A :=
  fun log =>
    match body log with
    | (r, log') => (r, log' ++ [Close])
    end.

Definition URL : pystr := str "amqp://localhost/".
Definition QUEUE : pystr := str "my_queue".

(** [declared] is [false] when the function returned from the handler of
    [ChannelClosed]. *)
Definition send_message (amqp : Call -> Answer) (message : pystr) : P unit :=
  except_exception
    (pbind (pcall amqp (Connect URL)) (fun _ =>
     with_connection
       (pbind (pcall amqp Channel) (fun _ =>
        pbind (except_channel_closed
                 (pbind (pcall amqp (DeclarePassive QUEUE))
                        (fun _ => pret true))
                 (pret false))
              (fun declared =>
                 if declared then
                   match encode message with
                   | None => praise RaisedUnicodeEncodeError
                   | Some body =>
                       pcall amqp (PublishTo body PERSISTENT QUEUE)
                   end
                 else pret tt)))))
    (pret tt).

End RabbitProducer.

(* ===================================================================== *)
(** ** What the statements observe                                        *)
(* ===================================================================== *)

Import MessagesSchemas.
Import MessagesRouter.

(** The committed database after a handler ran. *)
Definition stored (w : World) : Store := committed (db w).

Definition is_publish (c : BrokerCall) : bool :=
  match c with Publish _ _ _ => true | _ => false end.


(** Publish calls, and connections opened, in a log of the broker client. *)
Definition publishes (log : list BrokerCall) : nat :=
  List.length (filter is_publish log).


(** The broker lets the relay connect, open a channel, set the prefetch
    count and declare the queue. *)
Definition setup_ok (amqp : BrokerCall -> bool) : bool :=
  amqp (ConnectRobust RABBITMQ_URL) && amqp OpenChannel && amqp (SetQos 1)
  && amqp (DeclareQueue QUEUE_NAME true).

(** The calls one run of the relay makes on the broker client, up to the
    first one the broker refuses. *)
Definition relay_calls (amqp : BrokerCall -> bool) (body : list N)
    : list BrokerCall :=
  ConnectRobust RABBITMQ_URL ::
  (if amqp (ConnectRobust RABBITMQ_URL) then
     OpenChannel ::
     (if amqp OpenChannel then
        SetQos 1 ::
        (if amqp (SetQos 1) then
           DeclareQueue QUEUE_NAME true ::
           (if amqp (DeclareQueue QUEUE_NAME true) then
              [Publish body PERSISTENT QUEUE_NAME]
            else [])
         else [])
      else [])
     ++ [CloseConnection]
   else []).

(** The first call of [l] the broker refuses, if any. *)
Fixpoint first_refused (amqp : BrokerCall -> bool) (l : list BrokerCall)
    : option BrokerCall :=
  match l with
  | [] => None
  | c :: l' => if amqp c then first_refused amqp l' else Some c
  end.

Definition relay_sequence (body : list N) : list BrokerCall :=
  [ConnectRobust RABBITMQ_URL; OpenChannel; SetQos 1;
   DeclareQueue QUEUE_NAME true; Publish body PERSISTENT QUEUE_NAME].

Definition relay_outcome (amqp : BrokerCall -> bool) (body : list N)
    : outcome unit :=
  match first_refused amqp (relay_sequence body) with
  | Some c => Raise (AMQPError c)
  | None => Return tt
  end.

(** The answer of [receive_message]. *)
Definition reply (sid : pystr) : MessageResponse :=
  {| message := ACCEPTED; response_session_id := sid |}.

(** The row [receive_message] inserts. *)
Definition new_message_row (message_data : MessageCreate) (sid : pystr)
    (now : datetime) (st : Store) : Message.t :=
  Message.mk (Sql.next_pk (map Message.id (messages st)))
             (text message_data) (sender message_data)
             (Some (role message_data)) sid (Some now) false false.

Definition add_message_row (m : Message.t) (st : Store) : Store :=
  {| sessions := sessions st; leads := leads st;
     messages := messages st ++ [m] |}.

(** The wire format as the specification words it: the object with the
    members [id], [session_id], [text], [sender], [created_at]. *)
Definition wire_format (m : Message.t) : dict :=
  [ (str "id", VInt (Message.id m));
    (str "session_id", VStr (Message.session_id m));
    (str "text", VStr (Message.text m));
    (str "sender", VStr (Message.sender m));
    (str "created_at",
     match Message.created_at m with
     | Some t => VStr (isoformat t)
     | None => VNone
     end) ].

(** The uniqueness the schema declares on [sessions]: primary key and
    [session_id]. *)
Definition sessions_unique (st : Store) : Prop :=
  NoDup (map Session.id (sessions st))
  /\ NoDup (map Session.session_id (sessions st)).

(** The store after the rows of [l] were deleted one after the other. *)
Definition delete_all (l : list Session.t) (st : Store) : Store :=
  fold_left (fun acc s => Sql.delete_session s acc) l st.


(** The row a new session gets in the user-keyed flow. *)
Definition new_session_row (uuid4 user_id : pystr) (now : datetime)
    (st : Store) : Session.t :=
  Session.mk (Sql.next_pk (map Session.id (sessions st))) uuid4
             (Some user_id) now now.

Definition add_session_row (s : Session.t) (st : Store) : Store :=
  {| sessions := sessions st ++ [s]; leads := leads st;
     messages := messages st |}.

(** The lead [create_lead] inserts. *)
Definition new_lead_row (sid : pystr) (st : Store) : Lead.t :=
  Lead.mk (Sql.next_pk (map Lead.id (leads st)))
          (Some Crud.NEW_FIRST_NAME) (Some Crud.NEW_LAST_NAME) sid.

(** Rows in non-decreasing order of a key. *)
Definition sorted_by {A : Type} (key : A -> Z) (l : list A) : Prop :=
  StronglySorted (fun a b => key a <= key b) l.

(** Messages and leads of one session. *)
Definition messages_of (sid : pystr) (st : Store) : list Message.t :=
  filter (Sql.in_session sid) (messages st).

Definition leads_of (sid : pystr) (st : Store) : list Lead.t :=
  filter (Sql.lead_of sid) (leads st).

(** *** Observations on the further handlers *)

(** A message row with its sent flag set to [b]. *)
Definition with_sent (b : bool) (m : Message.t) : Message.t :=
  Message.mk (Message.id m) (Message.text m) (Message.sender m)
             (Message.role m) (Message.session_id m) (Message.created_at m)
             b (Message.is_processed_by_bot m).

(** The flag [receive_message] leaves on the row it stored. *)
Definition relayed (r : MessageRole) : bool :=
  match r with
  | BOT => false
  | _ => true
  end.

(** Every message and every lead belongs to a stored session. *)
Definition no_orphans (st : Store) : Prop :=
  (forall m, In m (messages st) ->
             Sql.session_exists st (Message.session_id m) = true)
  /\ (forall l, In l (leads st) ->
                Sql.session_exists st (Lead.session_id l) = true).

(** What the schema promises of a store: unique sessions, distinct message
    keys, no message or lead without its session. *)
Definition consistent (st : Store) : Prop :=
  sessions_unique st
  /\ NoDup (map Message.id (messages st))
  /\ no_orphans st.

(** [a] does not come after [b] in the order of [created_at], NULLs
    last. *)
Definition created_not_after (a b : Message.t) : Prop :=
  Sql.created_before b a = false.

(** The answer element [get_message_history] makes of a row. *)
Definition history_item (msg : Message.t) : pystr * pystr :=
  (Message.text msg, Message.sender msg).

Definition is_publish_to (c : RabbitProducer.Call) : bool :=
  match c with
  | RabbitProducer.PublishTo _ _ _ => true
  | _ => false
  end.

(** Publish calls in a log of the producer. *)
Definition published (log : list RabbitProducer.Call) : nat :=
  List.length (filter is_publish_to log).

(** The broker answers [Done] to the connection, the channel and the
    passive declaration of the producer. *)
Definition producer_ready (amqp : RabbitProducer.Call -> RabbitProducer.Answer)
    : Prop :=
  amqp (RabbitProducer.Connect RabbitProducer.URL) = RabbitProducer.Done
  /\ amqp RabbitProducer.Channel = RabbitProducer.Done
  /\ amqp (RabbitProducer.DeclarePassive RabbitProducer.QUEUE)
     = RabbitProducer.Done.

(** Rows of the leads listing a session gives rise to: one for each lead,
    one when it has none. *)
Definition lead_rows_of (st : Store) (s : Session.t) : nat :=
  Nat.max 1 (List.length (leads_of (Session.session_id s) st)).

(* ===================================================================== *)
(** ** Sample stores, requests and brokers                                *)
(* ===================================================================== *)

Module Sample.

Definition s1 : Session.t :=
  Session.mk 1 (str "s1") (Some (str "u1")) 0 0.

Definition m1 : Message.t :=
  Message.mk 1 (str "hi") (str "u1") (Some LEAD) (str "s1") (Some 5)
             false false.

Definition one_session : Store :=
  {| sessions := [s1]; leads := []; messages := [] |}.

Definition one_message : Store :=
  {| sessions := [s1]; leads := []; messages := [m1] |}.

(** An idle session with a message and a lead, and a recent one with a
    message. *)
Definition idle : Session.t :=
  Session.mk 1 (str "old") (Some (str "u1")) 0 0.

Definition recent : Session.t :=
  Session.mk 2 (str "new") (Some (str "u1")) 100000000 100000000.

Definition two_sessions : Store :=
  {| sessions := [idle; recent];
     leads := [Lead.mk 1 (Some (str "A")) None (str "old")];
     messages :=
       [Message.mk 1 (str "a") (str "u1") (Some LEAD) (str "old") (Some 0)
                   true false;
        Message.mk 2 (str "b") (str "u1") (Some LEAD) (str "new")
                   (Some 100000000) true false] |}.

(** Two messages of one session that the engine scans newest first. *)
Definition first_message : Message.t :=
  Message.mk 1 (str "one") (str "u1") (Some LEAD) (str "s1") (Some 10)
             true false.

Definition second_message : Message.t :=
  Message.mk 2 (str "two") (str "u1") (Some LEAD) (str "s1") (Some 20)
             true false.

Definition scanned_newest_first : Store :=
  {| sessions := [s1]; leads := [];
     messages := [second_message; first_message] |}.

Definition broker_up (c : BrokerCall) : bool := true.

Definition publish_refused (c : BrokerCall) : bool := negb (is_publish c).

Definition hi (r : MessageRole) (sid : option pystr) : MessageCreate :=
  {| text := str "hi"; sender := str "u1"; role := r; session_id := sid |}.

End Sample.

(* ===================================================================== *)
(** ** The library functions on known values                              *)
(* ===================================================================== *)

Example isoformat_epoch : isoformat 0%Z = str "1970-01-01T00:00:00".
Proof. reflexivity. Qed.

Example isoformat_2023 :
  isoformat 1700000000000250%Z = str "2023-11-14T22:13:20.000250".
Proof. vm_compute. reflexivity. Qed.

Example isoformat_leap :
  isoformat (951782400 * 1000000)%Z = str "2000-02-29T00:00:00".
Proof. vm_compute. reflexivity. Qed.

Example isoformat_before_epoch :
  isoformat (-1)%Z = str "1969-12-31T23:59:59.999999".
Proof. vm_compute. reflexivity. Qed.

(** [json.dumps] of a dictionary holding -7, a text with a double quote
    and a line feed, and [None]. *)
Example dumps_small :
  dumps [(str "id", VInt (-7)); (str "text", VStr (str "a" ++ [34; 10]%N));
         (str "t", VNone)]
  = str "{" ++ [34%N] ++ str "id" ++ [34%N] ++ str ": -7, "
    ++ [34%N] ++ str "text" ++ [34%N] ++ str ": "
    ++ [34%N] ++ str "a\" ++ [34%N] ++ str "\n" ++ [34%N] ++ str ", "
    ++ [34%N] ++ str "t" ++ [34%N] ++ str ": null}".
Proof. vm_compute. reflexivity. Qed.

(** Cyrillic and astral characters are escaped to ASCII. *)
Example dumps_escape :
  encode_basestring_ascii [1051; 128512]%N
  = [34%N] ++ str "\u041b\ud83d\ude00" ++ [34%N].
Proof. vm_compute. reflexivity. Qed.

(* ===================================================================== *)
(** ** Facts about strings, JSON and primary keys                         *)
(* ===================================================================== *)

Lemma str_eqb_eq (a b : pystr) : str_eqb a b = true <-> a = b.
Proof.
  revert b; induction a as [|x a IH]; intros [|y b]; simpl;
    split; intro H; try reflexivity; try discriminate.
  - apply andb_true_iff in H as [Hx Ha].
    apply N.eqb_eq in Hx. apply IH in Ha. congruence.
  - inversion H; subst. rewrite N.eqb_refl. simpl. now apply IH.
Qed.

Lemma str_eqb_refl (a : pystr) : str_eqb a a = true.
Proof. now apply str_eqb_eq. Qed.

Lemma str_eqb_neq (a b : pystr) : str_eqb a b = false <-> a <> b.
Proof.
  split.
  - intros H E. apply str_eqb_eq in E. congruence.
  - intro H. destruct (str_eqb a b) eqn:E; [|reflexivity].
    apply str_eqb_eq in E. contradiction.
Qed.

Lemma str_eqb_sym (a b : pystr) : str_eqb a b = str_eqb b a.
Proof.
  destruct (str_eqb a b) eqn:E.
  - apply str_eqb_eq in E. subst. symmetry. apply str_eqb_refl.
  - symmetry. apply str_eqb_neq. apply str_eqb_neq in E. congruence.
Qed.

(** What [lstrip] leaves is empty or starts with a non-space. *)
Lemma lstrip_head (s : pystr) :
  lstrip s = [] \/ exists c t, lstrip s = c :: t /\ isspace c = false.
Proof.
  induction s as [|c s IH]; simpl; [now left|].
  destruct (isspace c) eqn:E; [exact IH|].
  right. now exists c, s.
Qed.

Lemma lstrip_nil_iff (s : pystr) :
  lstrip s = [] <-> forallb isspace s = true.
Proof.
  induction s as [|c s IH]; simpl; [tauto|].
  destruct (isspace c); simpl; [exact IH|].
  split; discriminate.
Qed.

Lemma forallb_rev {A : Type} (p : A -> bool) (l : list A) :
  forallb p (rev l) = forallb p l.
Proof.
  induction l as [|x l IH]; simpl; [reflexivity|].
  rewrite forallb_app, IH. simpl. rewrite andb_true_r. apply andb_comm.
Qed.

Lemma rev_nil_inv {A : Type} (l : list A) : rev l = [] -> l = [].
Proof.
  intro H. apply (f_equal (@rev A)) in H. now rewrite rev_involutive in H.
Qed.

(** [value.strip()] is empty exactly when every character is a space. *)
Lemma strip_nil_iff (s : pystr) :
  strip s = [] <-> forallb isspace s = true.
Proof.
  unfold strip, rstrip. split.
  - intro H. apply rev_nil_inv in H. apply lstrip_nil_iff in H.
    rewrite forallb_rev in H.
    destruct (lstrip_head s) as [E | (c & t & E & Hc)].
    + now apply lstrip_nil_iff.
    + rewrite E in H. simpl in H. rewrite Hc in H. discriminate.
  - intro H. apply lstrip_nil_iff in H. now rewrite H.
Qed.

Lemma truthy_false_iff (s : pystr) : truthy s = false <-> s = [].
Proof. destruct s; simpl; split; congruence. Qed.

(** *** The output of [json.dumps] is plain ASCII *)

Lemma ascii_only_app (a b : pystr) :
  ascii_only a -> ascii_only b -> ascii_only (a ++ b).
Proof. intros; now apply Forall_app. Qed.

Lemma hex_digit_ascii (n : N) : (n < 16)%N -> (hex_digit n < 128)%N.
Proof.
  intro H. unfold hex_digit. destruct (n <? 10)%N eqn:E.
  - apply N.ltb_lt in E. lia.
  - lia.
Qed.

Lemma u_escape_ascii (n : N) : ascii_only (u_escape n).
Proof.
  unfold u_escape, ascii_only.
  repeat constructor; try lia;
    apply hex_digit_ascii; apply N.mod_upper_bound; lia.
Qed.

Lemma escape_char_ascii (c : N) : ascii_only (escape_char c).
Proof.
  unfold escape_char.
  repeat match goal with
         | |- ascii_only (if ?b then _ else _) => destruct b eqn:?
         end;
    try (repeat constructor; lia).
  - apply andb_true_iff in Heqb6 as [_ H]. apply N.leb_le in H.
    repeat constructor. lia.
  - apply u_escape_ascii.
  - apply ascii_only_app; apply u_escape_ascii.
Qed.

Lemma encode_basestring_ascii_ascii (s : pystr) :
  ascii_only (encode_basestring_ascii s).
Proof.
  unfold encode_basestring_ascii.
  apply ascii_only_app; [repeat constructor; lia|].
  apply ascii_only_app; [|repeat constructor; lia].
  induction s as [|c s IH]; simpl; [constructor|].
  apply ascii_only_app; [apply escape_char_ascii | exact IH].
Qed.

Lemma str_String (a : ascii) (s : string) :
  str (String a s) = N_of_ascii a :: str s.
Proof. reflexivity. Qed.

Lemma digits_ascii (u : Decimal.uint) :
  ascii_only (str (NilEmpty.string_of_uint u)).
Proof.
  induction u; simpl; try (constructor; fail);
    rewrite str_String; constructor; try assumption; simpl; lia.
Qed.

Lemma string_of_uint_ascii (u : Decimal.uint) :
  ascii_only (str (NilZero.string_of_uint u)).
Proof.
  destruct u; try apply (digits_ascii (_ u)).
  repeat constructor; simpl; lia.
Qed.

Lemma string_of_int_ascii (i : Decimal.int) :
  ascii_only (str (NilZero.string_of_int i)).
Proof.
  destruct i as [u | u]; simpl.
  - apply string_of_uint_ascii.
  - rewrite str_String. constructor; [simpl; lia|].
    apply string_of_uint_ascii.
Qed.

Lemma dumps_val_ascii (v : pyval) : ascii_only (dumps_val v).
Proof.
  destruct v; simpl.
  - apply string_of_int_ascii.
  - apply encode_basestring_ascii_ascii.
  - repeat constructor; simpl; lia.
Qed.

Lemma dumps_item_ascii (kv : pystr * pyval) : ascii_only (dumps_item kv).
Proof.
  unfold dumps_item.
  apply ascii_only_app; [apply encode_basestring_ascii_ascii|].
  apply ascii_only_app; [repeat constructor; simpl; lia|].
  apply dumps_val_ascii.
Qed.

Lemma join_ascii (sep : pystr) (parts : list pystr) :
  ascii_only sep -> Forall ascii_only parts -> ascii_only (join sep parts).
Proof.
  intros Hsep H. induction H as [|p rest Hp Hrest IH]; simpl; [constructor|].
  destruct rest as [|q rest]; [exact Hp|].
  apply ascii_only_app; [exact Hp|].
  apply ascii_only_app; [exact Hsep | exact IH].
Qed.

Lemma dumps_ascii (d : dict) : ascii_only (dumps d).
Proof.
  unfold dumps.
  apply ascii_only_app; [repeat constructor; simpl; lia|].
  apply ascii_only_app; [|repeat constructor; simpl; lia].
  apply join_ascii; [repeat constructor; simpl; lia|].
  apply Forall_forall. intros p Hp. apply in_map_iff in Hp as (kv & <- & _).
  apply dumps_item_ascii.
Qed.

(** On ASCII text, UTF-8 encoding never fails and changes nothing. *)
Lemma encode_ascii (s : pystr) : ascii_only s -> encode s = Some s.
Proof.
  induction 1 as [|c s Hc Hs IH]; simpl; [reflexivity|].
  unfold utf8_char. apply N.ltb_lt in Hc. rewrite Hc, IH. reflexivity.
Qed.

Lemma encode_dumps (d : dict) : encode (dumps d) = Some (dumps d).
Proof. apply encode_ascii, dumps_ascii. Qed.

(** *** Primary keys *)

Lemma next_pk_above (ids : list Z) (x : Z) : In x ids -> x < Sql.next_pk ids.
Proof.
  unfold Sql.next_pk.
  induction ids as [|y ids IH]; cbn [fold_right In]; [tauto|].
  intros [E | H].
  - subst y. generalize (Z.le_max_l x (fold_right Z.max 0 ids)). lia.
  - specialize (IH H).
    generalize (Z.le_max_r y (fold_right Z.max 0 ids)). lia.
Qed.

Lemma find_app_fresh {A : Type} (p : A -> bool) (l : list A) (x : A) :
  (forall y, In y l -> p y = false) -> p x = true ->
  find p (l ++ [x]) = Some x.
Proof.
  intros Hl Hx. induction l as [|y l IH]; simpl.
  - now rewrite Hx.
  - rewrite (Hl y (or_introl eq_refl)). apply IH.
    intros z Hz. apply Hl. now right.
Qed.

(* ===================================================================== *)
(** ** The relay ([send_to_rabbitmq])                                     *)
(* ===================================================================== *)

(** A run of the relay on a message it finds: the flag is set and
    committed first, then the broker is called; whatever the broker
    answers, the database ends with the flag committed. *)
Lemma send_to_rabbitmq_found (amqp : BrokerCall -> bool) (d : dict)
    (w : World) (v : pyval) (m : Message.t) :
  dict_get d (str "id") = Some v ->
  message_by_id v (pending (db w)) = Some m ->
  send_to_rabbitmq amqp d w
  = (relay_outcome amqp (dumps d),
     {| db := fresh_session
                (Sql.set_sent_pk (Message.id m) true (pending (db w)));
        broker := broker w ++ relay_calls amqp (dumps d) |}).
Proof.
  intros Hid Hm.
  unfold send_to_rabbitmq, try_except, bind, query, execute, commit,
    rollback, raise, ret, async_with_connection, call.
  rewrite Hid. cbn beta iota. rewrite Hm. cbn beta iota delta [db broker pending committed].
  rewrite encode_dumps.
  unfold relay_outcome, relay_calls, relay_sequence, fresh_session.
  cbn [first_refused].
  destruct (amqp (ConnectRobust RABBITMQ_URL)); cbn beta iota delta [db broker pending committed];
    [|reflexivity].
  destruct (amqp OpenChannel); cbn beta iota delta [db broker pending committed];
    [|now rewrite <- !app_assoc].
  destruct (amqp (SetQos 1)); cbn beta iota delta [db broker pending committed];
    [|now rewrite <- !app_assoc].
  destruct (amqp (DeclareQueue QUEUE_NAME true)); cbn beta iota delta [db broker pending committed];
    [|now rewrite <- !app_assoc].
  destruct (amqp (Publish (dumps d) PERSISTENT QUEUE_NAME));
    cbn beta iota delta [db broker pending committed];
    now rewrite <- !app_assoc.
Qed.

Lemma find_existsb {A : Type} (p : A -> bool) (l : list A) (x : A) :
  find p l = Some x -> existsb p l = true.
Proof.
  intro H. apply find_some in H as [Hin Hp].
  apply existsb_exists. now exists x.
Qed.

Lemma find_none_existsb {A : Type} (p : A -> bool) (l : list A) :
  find p l = None -> existsb p l = false.
Proof.
  intro H. destruct (existsb p l) eqn:E; [|reflexivity].
  apply existsb_exists in E as (x & Hin & Hp).
  now rewrite (find_none _ _ H x Hin) in Hp.
Qed.

(** The row just inserted is the one the relay fetches back by its key. *)
Lemma message_by_id_new (st : Store) (row : Message.t) :
  Message.id row = Sql.next_pk (map Message.id (messages st)) ->
  message_by_id (VInt (Message.id row)) (add_message_row row st) = Some row.
Proof.
  intro Hid. unfold message_by_id, add_message_row. cbn [messages].
  apply find_app_fresh.
  - intros y Hy. apply Z.eqb_neq.
    assert (Message.id y < Message.id row); [|lia].
    rewrite Hid. apply next_pk_above. now apply in_map.
  - apply Z.eqb_refl.
Qed.

(** [receive_message] on a request whose session exists. *)
Lemma receive_message_found (amqp : BrokerCall -> bool) (md : MessageCreate)
    (now : datetime) (w : World) (sid : pystr) (s : Session.t) :
  session_id md = Some sid -> sid <> [] ->
  find (Sql.session_is sid) (sessions (pending (db w))) = Some s ->
  let row := new_message_row md sid now (pending (db w)) in
  let st1 := add_message_row row (pending (db w)) in
  let body := dumps (message_data_for_rabbitmq row) in
  receive_message amqp md now w
  = if str_eqb (role_value (role md)) (str "BOT") then
      (Return (reply sid), {| db := fresh_session st1; broker := broker w |})
    else
      (match relay_outcome amqp body with
       | Return _ => Return (reply sid)
       | Raise e => Raise e
       end,
       {| db := fresh_session (Sql.set_sent_pk (Message.id row) true st1);
          broker := broker w ++ relay_calls amqp body |}).
Proof.
  intros Hsid Hne Hfind row st1 body.
  unfold receive_message. rewrite Hsid.
  destruct sid as [|c sid']; [congruence|]. cbn [truthy negb].
  set (sid := c :: sid') in *.
  unfold bind at 1. unfold query at 1. rewrite Hfind.
  unfold bind at 1. unfold insert at 1. unfold Sql.insert_message.
  unfold Sql.session_exists. rewrite (find_existsb _ _ Hfind).
  fold row. change ({| sessions := sessions (pending (db w));
                       leads := leads (pending (db w));
                       messages := messages (pending (db w)) ++ [row] |})
    with st1.
  unfold bind at 1. unfold commit at 1. cbn [db pending committed broker].
  unfold bind at 1.
  destruct (str_eqb (role_value (role md)) (str "BOT")); cbn [negb].
  - reflexivity.
  - rewrite (send_to_rabbitmq_found amqp (message_data_for_rabbitmq row)
               _ (v := VInt (Message.id row)) (m := row));
      [| reflexivity | apply message_by_id_new; reflexivity].
    cbn [db pending committed broker app].
    fold body. destruct (relay_outcome amqp body) as [[]|e]; reflexivity.
Qed.

(** Setting the flag on a row found by its key leaves a row with that
    key, the flag set and every other column as it was. *)
Lemma set_sent_pk_find (st : Store) (i : Z) (m : Message.t) (b : bool) :
  find (fun x => Message.id x =? i) (messages st) = Some m ->
  find (fun x => Message.id x =? i) (messages (Sql.set_sent_pk (Message.id m) b st))
  = Some (Message.mk (Message.id m) (Message.text m) (Message.sender m)
            (Message.role m) (Message.session_id m) (Message.created_at m)
            b (Message.is_processed_by_bot m)).
Proof.
  intro H. pose proof (find_some _ _ H) as [_ Hi]. apply Z.eqb_eq in Hi.
  unfold Sql.set_sent_pk. cbn [messages]. rewrite Hi.
  induction (messages st) as [|x l IH]; [discriminate|].
  cbn [find map] in *. destruct (Message.id x =? i) eqn:E.
  - inversion H; subst x. cbn [Message.id]. rewrite E. now rewrite Hi.
  - rewrite E. now apply IH.
Qed.



(** Whenever the relay finds the row and the broker refuses a call, the
    error reaches the caller and the committed row carries the flag. *)
Lemma send_to_rabbitmq_refused (amqp : BrokerCall -> bool) (d : dict)
    (w : World) (i : Z) (m : Message.t) (c : BrokerCall) :
  dict_get d (str "id") = Some (VInt i) ->
  message_by_id (VInt i) (pending (db w)) = Some m ->
  first_refused amqp (relay_sequence (dumps d)) = Some c ->
  fst (send_to_rabbitmq amqp d w) = Raise (AMQPError c)
  /\ exists m',
       message_by_id (VInt i) (stored (snd (send_to_rabbitmq amqp d w)))
       = Some m'
       /\ Message.text m' = Message.text m
       /\ Message.is_sent_to_rabbitmq m' = true.
Proof.
  intros Hid Hm Hc. rewrite (send_to_rabbitmq_found amqp d w Hid Hm).
  unfold relay_outcome. rewrite Hc. split; [reflexivity|].
  cbn [snd stored db committed fresh_session message_by_id] in *.
  rewrite (set_sent_pk_find _ _ true Hm). eexists. split; [reflexivity|].
  split; reflexivity.
Qed.

(** C1. The relay on a stored message whose flag is [False], with a
    broker that refuses the publish: the error is raised to the caller and
    the row is still there with its text, but its flag is [True], not the
    value it had before the call. The flag was committed before the
    broker was called, so the rollback of the handler finds nothing to
    undo. *)
Theorem send_to_rabbitmq_publish_failure_keeps_flag :
  let d := message_data_for_rabbitmq Sample.m1 in
  let w := world_of Sample.one_message in
  let w' := snd (send_to_rabbitmq Sample.publish_refused d w) in
  fst (send_to_rabbitmq Sample.publish_refused d w)
  = Raise (AMQPError (Publish (dumps d) PERSISTENT QUEUE_NAME))
  /\ map Message.text (messages (stored w')) = [str "hi"]
  /\ map Message.is_sent_to_rabbitmq (messages (stored w)) = [false]
  /\ map Message.is_sent_to_rabbitmq (messages (stored w')) = [true]
  /\ pending (db w') = stored w'.
Proof. vm_compute. repeat split. Qed.

(* ===================================================================== *)
(** ** [receive_message]: rejections                                      *)
(* ===================================================================== *)

Lemma receive_message_not_found (amqp : BrokerCall -> bool)
    (md : MessageCreate) (now : datetime) (w : World) (sid : pystr) :
  session_id md = Some sid -> sid <> [] ->
  find (Sql.session_is sid) (sessions (pending (db w))) = None ->
  receive_message amqp md now w = (Raise (HTTPException 404), w).
Proof.
  intros Hsid Hne Hfind. unfold receive_message. rewrite Hsid.
  destruct sid as [|c sid']; [congruence|]. cbn [truthy negb].
  unfold bind, query. now rewrite Hfind.
Qed.

Lemma receive_message_no_session_id (amqp : BrokerCall -> bool)
    (md : MessageCreate) (now : datetime) (w : World) :
  session_id md = None \/ session_id md = Some [] ->
  receive_message amqp md now w = (Raise (HTTPException 400), w).
Proof. intros [H | H]; unfold receive_message; now rewrite H. Qed.

(** C10. [receive_message] with a [session_id] that no session row has
    raises 404 and leaves the world as it was: no message row, no new
    session, no call on the broker. Without a [session_id] (absent or
    empty) it raises 400, again with the world unchanged. *)
Theorem receive_message_unknown_session (amqp : BrokerCall -> bool)
    (md : MessageCreate) (now : datetime) (w : World) :
  (forall sid,
      session_id md = Some sid -> sid <> [] ->
      find (Sql.session_is sid) (sessions (pending (db w))) = None ->
      receive_message amqp md now w = (Raise (HTTPException 404), w))
  /\ (session_id md = None \/ session_id md = Some [] ->
      receive_message amqp md now w = (Raise (HTTPException 400), w)).
Proof.
  split.
  - intros sid. apply receive_message_not_found.
  - apply receive_message_no_session_id.
Qed.

Lemma receive_message_unknown_session_witness :
  receive_message Sample.broker_up (Sample.hi LEAD (Some (str "nope"))) 9
    (world_of Sample.one_session)
  = (Raise (HTTPException 404), world_of Sample.one_session)
  /\ receive_message Sample.broker_up (Sample.hi LEAD None) 9
       (world_of Sample.one_session)
     = (Raise (HTTPException 400), world_of Sample.one_session).
Proof.
  split.
  - apply (proj1 (receive_message_unknown_session Sample.broker_up
                    (Sample.hi LEAD (Some (str "nope"))) 9
                    (world_of Sample.one_session)) (str "nope"));
      [reflexivity | discriminate | reflexivity].
  - apply (proj2 (receive_message_unknown_session Sample.broker_up
                    (Sample.hi LEAD None) 9 (world_of Sample.one_session))).
    now left.
Defined.

(* ===================================================================== *)
(** ** [receive_message]: persistence and relay                           *)
(* ===================================================================== *)


Lemma relay_calls_publishes (amqp : BrokerCall -> bool) (body : list N) :
  publishes (relay_calls amqp body) = if setup_ok amqp then 1%nat else 0%nat.
Proof.
  unfold relay_calls, setup_ok.
  destruct (amqp (ConnectRobust RABBITMQ_URL)); [|reflexivity].
  destruct (amqp OpenChannel); [|reflexivity].
  destruct (amqp (SetQos 1)); [|reflexivity].
  destruct (amqp (DeclareQueue QUEUE_NAME true)); reflexivity.
Qed.

Lemma relay_calls_publish (amqp : BrokerCall -> bool) (body b : list N)
    (mode : DeliveryMode) (key : pystr) :
  In (Publish b mode key) (relay_calls amqp body) ->
  b = body /\ mode = PERSISTENT /\ key = QUEUE_NAME.
Proof.
  unfold relay_calls.
  destruct (amqp (ConnectRobust RABBITMQ_URL));
    [destruct (amqp OpenChannel);
     [destruct (amqp (SetQos 1));
      [destruct (amqp (DeclareQueue QUEUE_NAME true))|]|]|];
    cbn [In app]; intro H;
    repeat match goal with
           | H : _ \/ _ |- _ => destruct H as [H | H]
           end;
    try discriminate; try contradiction.
  inversion H; subst. repeat split.
Qed.




(** The dictionary the handler builds has the members of the wire format,
    with [session_id] written before [id]. *)
Lemma message_data_wire_format (m : Message.t) :
  Permutation (message_data_for_rabbitmq m) (wire_format m).
Proof. unfold message_data_for_rabbitmq, wire_format. apply perm_swap. Qed.

(** C7. Every body [receive_message] has the relay publish is the UTF-8
    encoding (plain ASCII, in fact) of [json.dumps] of a flat dictionary
    with exactly the members [id], [session_id], [text], [sender] and
    [created_at] of the message row just committed, [created_at] in ISO
    format; it is published with delivery mode PERSISTENT under the queue
    name as routing key, and a call of the handler publishes at most one
    body. *)
Theorem relay_body_wire_format (amqp : BrokerCall -> bool)
    (md : MessageCreate) (now : datetime) (st : Store)
    (log : list BrokerCall) (sid : pystr) (s : Session.t) :
  session_id md = Some sid -> sid <> [] ->
  find (Sql.session_is sid) (sessions st) = Some s ->
  let w := {| db := fresh_session st; broker := log |} in
  let w' := snd (receive_message amqp md now w) in
  exists calls,
    broker w' = log ++ calls
    /\ (publishes calls <= 1)%nat
    /\ forall body mode key,
         In (Publish body mode key) calls ->
         mode = PERSISTENT /\ key = QUEUE_NAME
         /\ exists m d,
              In m (messages (stored w'))
              /\ Message.text m = text md
              /\ Message.sender m = sender md
              /\ Message.session_id m = sid
              /\ Message.created_at m = Some now
              /\ Permutation d (wire_format m)
              /\ body = dumps d
              /\ encode (dumps d) = Some body.
Proof.
  intros Hsid Hne Hfind w w'. subst w'.
  rewrite (receive_message_found amqp md now w Hsid Hne Hfind).
  cbn [db pending fresh_session broker].
  set (row := new_message_row md sid now st).
  destruct (str_eqb (role_value (role md)) (str "BOT")).
  - exists []. cbn [snd broker]. rewrite app_nil_r.
    split; [reflexivity|]. split; [cbn; lia|]. intros ? ? ? [].
  - cbn [snd broker stored db committed].
    exists (relay_calls amqp (dumps (message_data_for_rabbitmq row))).
    split; [reflexivity|].
    split; [rewrite relay_calls_publishes; destruct (setup_ok amqp); lia|].
    intros body mode key Hin.
    apply relay_calls_publish in Hin as (-> & -> & ->).
    split; [reflexivity|]. split; [reflexivity|].
    exists (Message.mk (Message.id row) (Message.text row)
              (Message.sender row) (Message.role row)
              (Message.session_id row) (Message.created_at row) true
              (Message.is_processed_by_bot row)),
           (message_data_for_rabbitmq row).
    split.
    { unfold Sql.set_sent_pk, add_message_row. cbn [messages].
      apply in_map_iff. exists row. split.
      - cbn beta.
        match goal with |- context [if ?a =? ?b then _ else _] =>
          destruct (Z.eqb_spec a b) as [_ | Hneq];
            [reflexivity | exfalso; apply Hneq; reflexivity]
        end.
      - apply in_or_app. right. now left. }
    do 4 (split; [reflexivity|]).
    split; [apply (message_data_wire_format row)|].
    split; [reflexivity | apply encode_dumps].
Qed.

Lemma relay_body_wire_format_witness :
  let w := {| db := fresh_session Sample.one_session; broker := [] |} in
  let w' := snd (receive_message Sample.broker_up
                   (Sample.hi LEAD (Some (str "s1"))) 1700000000000250 w) in
  exists calls,
    broker w' = [] ++ calls
    /\ In (Publish
             (dumps [ (str "session_id", VStr (str "s1")); (str "id", VInt 1);
                      (str "text", VStr (str "hi"));
                      (str "sender", VStr (str "u1"));
                      (str "created_at",
                       VStr (str "2023-11-14T22:13:20.000250")) ])
             PERSISTENT QUEUE_NAME) calls
    /\ forall body mode key,
         In (Publish body mode key) calls ->
         mode = PERSISTENT /\ key = QUEUE_NAME.
Proof.
  intros w w'.
  destruct (relay_body_wire_format Sample.broker_up
              (Sample.hi LEAD (Some (str "s1"))) 1700000000000250
              Sample.one_session [] (sid := str "s1") (s := Sample.s1)
              eq_refl ltac:(discriminate) eq_refl)
    as (calls & Hc & _ & Hall).
  exists calls. split; [exact Hc|]. split.
  - assert (E : calls = broker w') by (symmetry; exact Hc).
    rewrite E. vm_compute. do 4 right. now left.
  - intros body mode key Hin.
    destruct (Hall body mode key Hin) as (Hm & Hk & _). now split.
Defined.

(* ===================================================================== *)
(** ** The uniqueness declared on sessions is kept by every statement     *)
(* ===================================================================== *)

Lemma NoDup_snoc {A : Type} (l : list A) (x : A) :
  NoDup l -> ~ In x l -> NoDup (l ++ [x]).
Proof.
  induction 1 as [|y l Hy Hl IH]; cbn [app]; intro Hx.
  - constructor; [tauto | constructor].
  - constructor.
    + intro H. apply in_app_or in H as [H | [H | []]]; [tauto|].
      subst y. apply Hx. now left.
    + apply IH. intro H. apply Hx. now right.
Qed.

Lemma session_absent (st : Store) (sid : pystr) :
  Sql.session_exists st sid = false ->
  ~ In sid (map Session.session_id (sessions st)).
Proof.
  unfold Sql.session_exists. intros H Hin.
  apply in_map_iff in Hin as (s & Hs & Hin).
  assert (E : existsb (Sql.session_is sid) (sessions st) = true).
  { apply existsb_exists. exists s. split; [exact Hin|].
    unfold Sql.session_is. rewrite Hs. apply str_eqb_refl. }
  congruence.
Qed.

Lemma insert_session_unique (st st' : Store) (sid : pystr)
    (uid : option pystr) (created last : datetime) (row : Session.t) :
  sessions_unique st ->
  Sql.insert_session st sid uid created last = inr (row, st') ->
  sessions_unique st'.
Proof.
  intros [Hpk Hsid] H. unfold Sql.insert_session in H.
  destruct uid as [u|]; [|discriminate].
  destruct (Sql.session_exists st sid) eqn:E; [discriminate|].
  inversion H; subst; clear H. unfold sessions_unique. cbn [sessions].
  rewrite !map_app. cbn [map Session.id Session.session_id]. split.
  - apply NoDup_snoc; [exact Hpk|]. intro Hin.
    apply next_pk_above in Hin. lia.
  - apply NoDup_snoc; [exact Hsid|]. now apply session_absent.
Qed.

Lemma touch_unique (f : Session.t -> bool) (now : datetime) (st : Store) :
  let touched :=
    map (fun s => if f s
                  then Session.mk (Session.id s) (Session.session_id s)
                         (Session.user_id s) (Session.created_at s) now
                  else s) (sessions st) in
  map Session.id touched = map Session.id (sessions st)
  /\ map Session.session_id touched = map Session.session_id (sessions st).
Proof.
  cbv zeta. rewrite !map_map.
  split; apply map_ext; intro s; now destruct (f s).
Qed.

Lemma update_last_active_unique (sid : pystr) (now : datetime) (st : Store) :
  sessions_unique st ->
  sessions_unique (Sql.update_last_active_where sid now st).
Proof.
  unfold sessions_unique, Sql.update_last_active_where. cbn [sessions].
  destruct (touch_unique (Sql.session_is sid) now st) as [-> ->]. tauto.
Qed.

Lemma set_last_active_unique (pk : Z) (now : datetime) (st : Store) :
  sessions_unique st -> sessions_unique (Sql.set_last_active_pk pk now st).
Proof.
  unfold sessions_unique, Sql.set_last_active_pk. cbn [sessions].
  destruct (touch_unique (fun s => Session.id s =? pk) now st) as [-> ->].
  tauto.
Qed.

Lemma filter_keeps_keys_distinct {K R : Type} (key : R -> K)
    (keep : R -> bool) :
  forall rows, NoDup (map key rows) -> NoDup (map key (filter keep rows)).
Proof.
  intro rows. induction rows as [|r rows IH]; cbn [map filter]; intro H;
    [constructor|].
  inversion H as [|? ? Hr Hrows]; subst.
  destruct (keep r); [|now apply IH].
  cbn [map]. constructor; [|now apply IH].
  intro Hin. apply Hr. apply in_map_iff in Hin as (y & Hy & Hin).
  apply in_map_iff. exists y. split; [exact Hy|].
  now apply filter_In in Hin.
Qed.

Lemma delete_session_unique (s : Session.t) (st : Store) :
  sessions_unique st -> sessions_unique (Sql.delete_session s st).
Proof.
  unfold sessions_unique, Sql.delete_session. cbn [sessions].
  intros [Hpk Hsid]. split; now apply filter_keeps_keys_distinct.
Qed.

(* ===================================================================== *)
(** ** The expiry sweep ([cleanup_expired_sessions])                      *)
(* ===================================================================== *)

Lemma filter_filter {A : Type} (p q : A -> bool) (l : list A) :
  filter p (filter q l) = filter (fun x => q x && p x) l.
Proof.
  induction l as [|x l IH]; cbn [filter]; [reflexivity|].
  destruct (q x); cbn [filter andb]; [|exact IH].
  destruct (p x); now rewrite IH.
Qed.

Lemma filter_all {A : Type} (p : A -> bool) (l : list A) :
  (forall x, In x l -> p x = true) -> filter p l = l.
Proof.
  induction l as [|x l IH]; cbn [filter]; intro H; [reflexivity|].
  rewrite (H x (or_introl eq_refl)). f_equal. apply IH.
  intros y Hy. apply H. now right.
Qed.

Lemma filter_none {A : Type} (p : A -> bool) (l : list A) :
  (forall x, In x l -> p x = false) -> filter p l = [].
Proof.
  induction l as [|x l IH]; cbn [filter]; intro H; [reflexivity|].
  rewrite (H x (or_introl eq_refl)). apply IH.
  intros y Hy. apply H. now right.
Qed.

Lemma NoDup_map_inj {A B : Type} (f : A -> B) (l : list A) (x y : A) :
  NoDup (map f l) -> In x l -> In y l -> f x = f y -> x = y.
Proof.
  induction l as [|a l IH]; cbn [map]; intros Hnd Hx Hy E; [contradiction|].
  inversion Hnd as [|? ? Hnotin Hnd']; subst.
  destruct Hx as [-> | Hx], Hy as [-> | Hy]; try reflexivity.
  - exfalso. apply Hnotin. rewrite E. now apply in_map.
  - exfalso. apply Hnotin. rewrite <- E. now apply in_map.
  - now apply IH.
Qed.

Lemma for_each_delete (l : list Session.t) (st : Store)
    (log : list BrokerCall) :
  for_each l (fun session => execute (Sql.delete_session session) ;;; commit)
    {| db := fresh_session st; broker := log |}
  = (Return tt, {| db := fresh_session (delete_all l st); broker := log |}).
Proof.
  revert st. induction l as [|s l IH]; intro st; [reflexivity|].
  cbn [for_each]. unfold bind at 1. unfold bind at 1.
  unfold execute at 1. cbn [db pending committed broker fresh_session].
  unfold commit at 1. cbn [db pending committed broker].
  apply (IH (Sql.delete_session s st)).
Qed.

Lemma delete_all_sessions (l : list Session.t) (st : Store) :
  sessions (delete_all l st)
  = filter (fun r => negb (existsb (fun s => Session.id r =? Session.id s) l))
           (sessions st).
Proof.
  revert st. induction l as [|s l IH]; intro st; cbn [delete_all fold_left].
  - cbn [existsb negb]. symmetry. now apply filter_all.
  - fold (delete_all l (Sql.delete_session s st)). rewrite IH.
    cbn [Sql.delete_session sessions]. rewrite filter_filter.
    apply filter_ext. intro r. cbn [existsb]. now rewrite negb_orb.
Qed.

Lemma delete_all_messages (l : list Session.t) (st : Store) :
  messages (delete_all l st)
  = filter (fun m => negb (existsb (fun s => Sql.in_session (Session.session_id s) m) l))
           (messages st).
Proof.
  revert st. induction l as [|s l IH]; intro st; cbn [delete_all fold_left].
  - cbn [existsb negb]. symmetry. now apply filter_all.
  - fold (delete_all l (Sql.delete_session s st)). rewrite IH.
    cbn [Sql.delete_session messages]. rewrite filter_filter.
    apply filter_ext. intro r. cbn [existsb]. now rewrite negb_orb.
Qed.

Lemma delete_all_leads (l : list Session.t) (st : Store) :
  leads (delete_all l st)
  = filter (fun x => negb (existsb (fun s => Sql.lead_of (Session.session_id s) x) l))
           (leads st).
Proof.
  revert st. induction l as [|s l IH]; intro st; cbn [delete_all fold_left].
  - cbn [existsb negb]. symmetry. now apply filter_all.
  - fold (delete_all l (Sql.delete_session s st)). rewrite IH.
    cbn [Sql.delete_session leads]. rewrite filter_filter.
    apply filter_ext. intro r. cbn [existsb]. now rewrite negb_orb.
Qed.

Lemma cleanup_expired_sessions_run (now : datetime) (st : Store)
    (log : list BrokerCall) :
  cleanup_expired_sessions now {| db := fresh_session st; broker := log |}
  = (Return tt,
     {| db := fresh_session
                (delete_all
                   (filter (fun s => Session.last_active s <? now - SESSION_LIFETIME)
                           (sessions st)) st);
        broker := log |}).
Proof.
  unfold cleanup_expired_sessions. unfold bind at 1. unfold query at 1.
  cbn [db pending fresh_session]. apply for_each_delete.
Qed.

(** C5. After the sweep, the sessions table holds exactly the sessions
    whose [last_active] is not older than the cutoff [now - TTL], each as
    it was. A session older than the cutoff is gone, and no message and
    no lead of its [session_id] is left; a session within the TTL is
    still there, with its messages and its leads unchanged. *)
Theorem cleanup_expired_sessions_sweep (now : datetime) (st : Store)
    (log : list BrokerCall) :
  sessions_unique st ->
  let cutoff := now - SESSION_LIFETIME in
  let w' := snd (cleanup_expired_sessions now
                   {| db := fresh_session st; broker := log |}) in
  sessions (stored w')
  = filter (fun s => negb (Session.last_active s <? cutoff)) (sessions st)
  /\ forall s,
       In s (sessions st) ->
       (Session.last_active s < cutoff ->
        ~ In s (sessions (stored w'))
        /\ messages_of (Session.session_id s) (stored w') = []
        /\ leads_of (Session.session_id s) (stored w') = [])
       /\ (cutoff <= Session.last_active s ->
           In s (sessions (stored w'))
           /\ messages_of (Session.session_id s) (stored w')
              = messages_of (Session.session_id s) st
           /\ leads_of (Session.session_id s) (stored w')
              = leads_of (Session.session_id s) st).
Proof.
  intros [Hpk Hsid] cutoff w'. subst w'.
  rewrite cleanup_expired_sessions_run.
  cbn [snd stored db committed fresh_session]. fold cutoff.
  set (expired := filter (fun s => Session.last_active s <? cutoff)
                         (sessions st)).
  assert (Hexp : forall s, In s expired <->
                           In s (sessions st) /\ Session.last_active s < cutoff).
  { intro s. unfold expired. rewrite filter_In, Z.ltb_lt. tauto. }
  assert (Hsessions :
            sessions (delete_all expired st)
            = filter (fun s => negb (Session.last_active s <? cutoff))
                     (sessions st)).
  { rewrite delete_all_sessions. apply filter_ext_in. intros r Hr. f_equal.
    destruct (Session.last_active r <? cutoff) eqn:E.
    - apply existsb_exists. exists r. split; [|apply Z.eqb_refl].
      apply Hexp. split; [exact Hr | now apply Z.ltb_lt].
    - destruct (existsb _ expired) eqn:Ex; [|reflexivity].
      apply existsb_exists in Ex as (s & Hs & Heq).
      apply Hexp in Hs as [Hs Hlt]. apply Z.eqb_eq in Heq.
      assert (r = s) by (apply (NoDup_map_inj Session.id _ _ _ Hpk Hr Hs Heq)).
      subst s. apply Z.ltb_lt in Hlt. congruence. }
  split; [exact Hsessions|].
  intros s Hs. split.
  - intro Hlt. assert (Hin : In s expired) by (now apply Hexp).
    split; [|split].
    + rewrite Hsessions, filter_In. intros [_ H].
      apply Z.ltb_lt in Hlt. rewrite Hlt in H. discriminate.
    + unfold messages_of. rewrite delete_all_messages, filter_filter.
      apply filter_none. intros m _.
      destruct (Sql.in_session (Session.session_id s) m) eqn:E;
        [|apply andb_false_r].
      apply andb_false_iff. left. apply negb_false_iff.
      apply existsb_exists. now exists s.
    + unfold leads_of. rewrite delete_all_leads, filter_filter.
      apply filter_none. intros x _.
      destruct (Sql.lead_of (Session.session_id s) x) eqn:E;
        [|apply andb_false_r].
      apply andb_false_iff. left. apply negb_false_iff.
      apply existsb_exists. now exists s.
  - intro Hge.
    assert (Hother : forall s', In s' expired ->
                                Session.session_id s' <> Session.session_id s).
    { intros s' Hs' E. apply Hexp in Hs' as [Hs' Hlt].
      assert (s' = s)
        by (apply (NoDup_map_inj Session.session_id _ _ _ Hsid Hs' Hs E)).
      subst s'. lia. }
    split; [|split].
    + rewrite Hsessions, filter_In. split; [exact Hs|].
      apply negb_true_iff, Z.ltb_ge. exact Hge.
    + unfold messages_of. rewrite delete_all_messages, filter_filter.
      apply filter_ext. intro m.
      destruct (Sql.in_session (Session.session_id s) m) eqn:E;
        [|apply andb_false_r].
      rewrite andb_true_r. apply negb_true_iff.
      destruct (existsb _ expired) eqn:Ex; [|reflexivity].
      apply existsb_exists in Ex as (s' & Hs' & Hm).
      exfalso. apply (Hother s' Hs').
      apply str_eqb_eq in E. apply str_eqb_eq in Hm. congruence.
    + unfold leads_of. rewrite delete_all_leads, filter_filter.
      apply filter_ext. intro x.
      destruct (Sql.lead_of (Session.session_id s) x) eqn:E;
        [|apply andb_false_r].
      rewrite andb_true_r. apply negb_true_iff.
      destruct (existsb _ expired) eqn:Ex; [|reflexivity].
      apply existsb_exists in Ex as (s' & Hs' & Hm).
      exfalso. apply (Hother s' Hs').
      apply str_eqb_eq in E. apply str_eqb_eq in Hm. congruence.
Qed.

Lemma sample_two_sessions_unique : sessions_unique Sample.two_sessions.
Proof.
  split; cbn; repeat constructor; cbn; intuition discriminate.
Qed.

Lemma cleanup_expired_sessions_sweep_witness :
  let w' := snd (cleanup_expired_sessions 200000000
                   {| db := fresh_session Sample.two_sessions; broker := [] |}) in
  sessions_unique Sample.two_sessions
  /\ sessions (stored w') = [Sample.recent]
  /\ messages_of (str "old") (stored w') = []
  /\ leads_of (str "old") (stored w') = []
  /\ messages_of (str "new") (stored w')
     = messages_of (str "new") Sample.two_sessions.
Proof.
  intro w'.
  destruct (cleanup_expired_sessions_sweep 200000000 (st := Sample.two_sessions) []
              sample_two_sessions_unique) as [Hs Hall].
  split; [exact sample_two_sessions_unique|].
  split; [exact Hs|].
  destruct (Hall Sample.idle (or_introl eq_refl)) as [Hidle _].
  destruct (Hidle ltac:(vm_compute; reflexivity)) as (_ & Hm & Hl).
  destruct (Hall Sample.recent (or_intror (or_introl eq_refl))) as [_ Hrecent].
  destruct (Hrecent ltac:(vm_compute; discriminate)) as (_ & Hm' & _).
  repeat split; assumption.
Defined.

(* ===================================================================== *)
(** ** Session resolution ([get_or_create_session], both flows)           *)
(* ===================================================================== *)

Lemma create_new_session_fresh (user_id uuid4 : pystr) (now : datetime)
    (st : Store) (log : list BrokerCall) :
  Sql.session_exists st uuid4 = false ->
  create_new_session user_id now uuid4
    {| db := fresh_session st; broker := log |}
  = (Return uuid4,
     {| db := fresh_session
                (add_session_row (new_session_row uuid4 user_id now st) st);
        broker := log |}).
Proof.
  intro H. unfold create_new_session, bind, insert, commit, ret.
  cbn [db pending committed broker fresh_session].
  unfold Sql.insert_session. now rewrite H.
Qed.

(** The legacy [create_session] never gets its row in: the insert leaves
    [user_id] out, which the schema declares [nullable=False]. *)
Lemma create_session_rejected (uuid4 : pystr) (now : datetime) (st : Store)
    (log : list BrokerCall) :
  Crud.create_session now uuid4 {| db := fresh_session st; broker := log |}
  = (Raise IntegrityError, {| db := fresh_session st; broker := log |}).
Proof. reflexivity. Qed.




(* ===================================================================== *)
(** ** Listing the messages of a session                                  *)
(* ===================================================================== *)

Lemma insert_by_perm {A : Type} (key : A -> Z) (x : A) (l : list A) :
  Permutation (Sql.insert_by key x l) (x :: l).
Proof.
  induction l as [|y l IH]; cbn [Sql.insert_by]; [apply Permutation_refl|].
  destruct (key x <? key y); [apply Permutation_refl|].
  eapply perm_trans; [apply perm_skip, IH | apply perm_swap].
Qed.

Lemma order_by_perm {A : Type} (key : A -> Z) (l : list A) :
  Permutation (Sql.order_by key l) l.
Proof.
  induction l as [|x l IH]; cbn [Sql.order_by]; [constructor|].
  eapply perm_trans; [apply insert_by_perm | now apply perm_skip].
Qed.

Lemma insert_by_sorted {A : Type} (key : A -> Z) (x : A) (l : list A) :
  sorted_by key l -> sorted_by key (Sql.insert_by key x l).
Proof.
  unfold sorted_by. induction 1 as [|y l Hl IH Hy]; cbn [Sql.insert_by].
  - constructor; constructor.
  - destruct (Z.ltb_spec (key x) (key y)) as [Hlt | Hge].
    + constructor; [now constructor|].
      constructor; [lia|]. eapply Forall_impl; [|exact Hy].
      cbn beta. intros z Hz. lia.
    + constructor; [exact IH|].
      apply Forall_forall. intros z Hz.
      apply (Permutation_in _ (insert_by_perm key x l)) in Hz.
      destruct Hz as [<- | Hz]; [exact Hge|].
      now apply (proj1 (Forall_forall _ _) Hy).
Qed.

Lemma order_by_sorted {A : Type} (key : A -> Z) (l : list A) :
  sorted_by key (Sql.order_by key l).
Proof.
  induction l as [|x l IH]; cbn [Sql.order_by]; [constructor|].
  now apply insert_by_sorted.
Qed.

(** [get_message_history] goes through the session's messages in
    increasing order of [id], whatever the scan order of the table. *)
Lemma get_message_history_ordered (session_id : pystr) (w : World) :
  let rows := history_rows session_id (pending (db w)) in
  sorted_by Message.id rows
  /\ Permutation rows (messages_of session_id (pending (db w)))
  /\ (rows <> [] ->
      get_message_history session_id w
      = (Return (map (fun msg => (Message.text msg, Message.sender msg)) rows),
         w)).
Proof.
  intro rows. split; [apply order_by_sorted|].
  split; [apply order_by_perm|].
  intro Hne. unfold get_message_history, bind, query. fold rows.
  destruct rows; [contradiction | reflexivity].
Qed.

(** [get_messages_for_user] returns the same rows, in scan order. *)
Lemma get_messages_for_user_rows (session_id : pystr) (w : World) :
  Crud.get_messages_for_user session_id w
  = (Return (messages_of session_id (pending (db w))), w).
Proof. reflexivity. Qed.

Lemma filter_sorted {A : Type} (key : A -> Z) (p : A -> bool) (l : list A) :
  sorted_by key l -> sorted_by key (filter p l).
Proof.
  unfold sorted_by. induction 1 as [|x l Hl IH Hx]; cbn [filter];
    [constructor|].
  destruct (p x); [|exact IH]. constructor; [exact IH|].
  apply Forall_forall. intros y Hy. apply filter_In in Hy as [Hy _].
  now apply (proj1 (Forall_forall _ _) Hx).
Qed.

(** On a table whose scan order happens to be the order of [id],
    [get_messages_for_user] returns the messages in that order too. *)
Lemma get_messages_for_user_sorted_scan (session_id : pystr) (w : World) :
  sorted_by Message.id (messages (pending (db w))) ->
  exists rows,
    Crud.get_messages_for_user session_id w = (Return rows, w)
    /\ sorted_by Message.id rows.
Proof.
  intro H. exists (messages_of session_id (pending (db w))).
  split; [reflexivity | now apply filter_sorted].
Qed.

(** C4. On a table the engine scans newest first, [get_messages_for_user]
    returns the two messages of the session with [id] 2 before [id] 1,
    while [get_message_history], which orders by [id], returns them as 1
    then 2. *)
Theorem get_messages_for_user_unordered :
  let w := world_of Sample.scanned_newest_first in
  fst (Crud.get_messages_for_user (str "s1") w)
  = Return [Sample.second_message; Sample.first_message]
  /\ ~ sorted_by Message.id [Sample.second_message; Sample.first_message]
  /\ fst (get_message_history (str "s1") w)
     = Return [(str "one", str "u1"); (str "two", str "u1")].
Proof.
  cbv zeta. split; [reflexivity|]. split; [|reflexivity].
  intro H. inversion H as [|? ? _ Hall]; subst.
  inversion Hall as [|? ? Hle _]; subst.
  vm_compute in Hle. now apply Hle.
Qed.

(* ===================================================================== *)
(** ** Leads                                                              *)
(* ===================================================================== *)

Lemma find_none_filter {A : Type} (p : A -> bool) (l : list A) :
  find p l = None <-> filter p l = [].
Proof.
  induction l as [|x l IH]; cbn [find filter]; [tauto|].
  destruct (p x); [split; discriminate | exact IH].
Qed.

Lemma session_exists_touched (k sid : pystr) (now : datetime) (st : Store) :
  Sql.session_exists (Sql.update_last_active_where k now st) sid
  = Sql.session_exists st sid.
Proof.
  unfold Sql.session_exists, Sql.update_last_active_where. cbn [sessions].
  induction (sessions st) as [|x l IH]; cbn [map existsb]; [reflexivity|].
  rewrite IH. f_equal. now destruct (Sql.session_is k x).
Qed.

Lemma session_exists_of_rows (sid : pystr) (st : Store) (s : Session.t) :
  filter (Sql.session_is sid) (sessions st) = [s] ->
  Sql.session_exists st sid = true.
Proof.
  intro H. unfold Sql.session_exists. apply existsb_exists. exists s.
  apply filter_In. rewrite H. now left.
Qed.


(** The legacy [create_message] on a message of an existing session: the
    session is touched, a lead is committed when the session has none, and
    the insert of the message itself is refused, since it leaves out
    [role], which the schema declares [nullable=False]. *)
Lemma create_message_run (message : GetMessageSchemas.MessageCreate)
    (now : datetime) (uuid4 : pystr) (st : Store) (log : list BrokerCall)
    (s : Session.t) :
  let sid := GetMessageSchemas.session_id message in
  let touched := Sql.update_last_active_where sid now st in
  filter (Sql.session_is sid) (sessions st) = [s] ->
  Crud.create_message message now uuid4
    {| db := fresh_session st; broker := log |}
  = (Raise IntegrityError,
     {| db := fresh_session
                (match find (Sql.lead_of sid) (leads st) with
                 | Some _ => touched
                 | None =>
                     {| sessions := sessions touched;
                        leads := leads st ++ [new_lead_row sid st];
                        messages := messages st |}
                 end);
        broker := log |}).
Proof.
  intros sid touched Hrows.
  cbv beta iota zeta delta
    [Crud.create_message Crud.get_session Crud.update_last_active
     Crud.get_lead_by_session Crud.create_lead bind query execute commit
     insert try_except ret fresh_session db pending committed broker].
  fold sid. rewrite Hrows.
  cbv beta iota zeta delta
    [Crud.scalar_one_or_none ret db pending committed broker].
  fold touched. change (leads touched) with (leads st).
  destruct (find (Sql.lead_of sid) (leads st)) as [l|] eqn:Hlead.
  - reflexivity.
  - unfold Sql.insert_lead. unfold touched at 1.
    rewrite session_exists_touched.
    rewrite (session_exists_of_rows _ _ Hrows).
    reflexivity.
Qed.





(* ===================================================================== *)
(** ** Validation of the message text                                     *)
(* ===================================================================== *)

(** [validate_text] refuses exactly the texts made of white space only
    (the empty text among them) and returns any other text as it is. *)
Lemma validate_text_spec (value : pystr) :
  (forallb isspace value = true -> validate_text value = inl ValueError)
  /\ (forallb isspace value = false -> validate_text value = inr value).
Proof.
  unfold validate_text. split; intro H.
  - apply strip_nil_iff in H. now rewrite H.
  - destruct (strip value) eqn:E; [|reflexivity].
    apply strip_nil_iff in E. congruence.
Qed.

(** C8, as amended. A request to the route of [receive_message] whose
    text is empty or made of white space only is refused by the validator
    of its schema with a [ValueError], before the handler is entered: the
    world is unchanged, so no message row is created and nothing is
    relayed. *)
Theorem post_message_rejects_blank_text (amqp : BrokerCall -> bool)
    (body : MessageCreateBody) (now : datetime) (w : World) :
  forallb isspace (body_text body) = true ->
  model_validate body = inl ValueError
  /\ post_message amqp body now w = (Raise ValueError, w).
Proof.
  intro H. destruct (validate_text_spec (body_text body)) as [Hv _].
  assert (E : model_validate body = inl ValueError).
  { unfold model_validate. rewrite (Hv H).
    now destruct (role_of_value (body_role body)). }
  split; [exact E|]. unfold post_message. now rewrite E.
Qed.

Lemma post_message_rejects_blank_text_witness :
  let body := {| body_text := [32; 9; 10; 160]%N; body_sender := str "u1";
                 body_role := str "LEAD";
                 body_session_id := Some (str "s1") |} in
  forallb isspace (body_text body) = true
  /\ post_message Sample.broker_up body 9 (world_of Sample.one_session)
     = (Raise ValueError, world_of Sample.one_session).
Proof.
  intro body. split; [reflexivity|].
  apply (post_message_rejects_blank_text Sample.broker_up body 9
           (world_of Sample.one_session) eq_refl).
Defined.

(** Against C8 as first stated: the schema of the legacy route accepts
    the empty text; [create_message] then runs, writes to the store (the
    session is touched and a lead committed) and ends in an integrity
    error of the store, not in a validation error. *)
Lemma legacy_schema_accepts_empty_text :
  let w := {| db := fresh_session Sample.one_session; broker := [] |} in
  exists message,
    GetMessageSchemas.model_validate [] (str "u1") (str "s1") = inr message
    /\ GetMessageSchemas.text message = []
    /\ fst (Crud.create_message message 9 (str "fresh") w)
       = Raise IntegrityError
    /\ stored (snd (Crud.create_message message 9 (str "fresh") w))
       = {| sessions := [Session.mk 1 (str "s1") (Some (str "u1")) 0 9];
            leads := [Lead.mk 1 (Some Crud.NEW_FIRST_NAME)
                              (Some Crud.NEW_LAST_NAME) (str "s1")];
            messages := [] |}.
Proof.
  eexists. split; [reflexivity|]. vm_compute. repeat split.
Qed.

(* ===================================================================== *)
(** ** Further properties: [receive_message] and the history               *)
(* ===================================================================== *)

Lemma new_message_row_above (md : MessageCreate) (sid : pystr)
    (now : datetime) (st : Store) (m : Message.t) :
  In m (messages st) ->
  Message.id m < Message.id (new_message_row md sid now st).
Proof.
  intro H. unfold new_message_row. cbn [Message.id].
  apply next_pk_above. now apply in_map.
Qed.

(** Setting the flag by the key of a row just appended touches that row
    only, when its key is new. *)
Lemma set_sent_pk_appended (st : Store) (row : Message.t) (b : bool) :
  (forall m, In m (messages st) -> Message.id m <> Message.id row) ->
  Sql.set_sent_pk (Message.id row) b (add_message_row row st)
  = add_message_row (with_sent b row) st.
Proof.
  intro Hfresh. unfold Sql.set_sent_pk, add_message_row. cbn [sessions leads messages].
  f_equal. rewrite map_app. cbn [map]. f_equal.
  - rewrite <- (map_id (messages st)) at 2. apply map_ext_in.
    intros m Hm. destruct (Z.eqb_spec (Message.id m) (Message.id row)) as [E|_];
      [now apply Hfresh in Hm | reflexivity].
  - now rewrite Z.eqb_refl.
Qed.

Lemma relayed_not_bot (r : MessageRole) :
  relayed r = negb (str_eqb (role_value r) (str "BOT")).
Proof. now destruct r. Qed.

(** The database after [receive_message] took a message in. *)
Lemma receive_message_db (amqp : BrokerCall -> bool) (md : MessageCreate)
    (now : datetime) (st : Store) (log : list BrokerCall) (sid : pystr)
    (s : Session.t) :
  session_id md = Some sid -> sid <> [] ->
  find (Sql.session_is sid) (sessions st) = Some s ->
  db (snd (receive_message amqp md now
             {| db := fresh_session st; broker := log |}))
  = fresh_session
      (add_message_row
         (with_sent (relayed (role md)) (new_message_row md sid now st)) st).
Proof.
  intros Hsid Hne Hfind.
  rewrite (receive_message_found amqp md now
             {| db := fresh_session st; broker := log |} Hsid Hne Hfind).
  cbn [db pending fresh_session broker]. rewrite relayed_not_bot.
  destruct (str_eqb (role_value (role md)) (str "BOT")); cbn [snd db negb].
  - reflexivity.
  - f_equal. apply set_sent_pk_appended.
    intros m Hm E. pose proof (new_message_row_above md sid now st m Hm). lia.
Qed.



(** The three ways [receive_message] ends, by the request and the
    sessions table. *)
Lemma receive_message_cases (amqp : BrokerCall -> bool) (md : MessageCreate)
    (now : datetime) (st : Store) (log : list BrokerCall) :
  let w := {| db := fresh_session st; broker := log |} in
  (exists code, receive_message amqp md now w = (Raise (HTTPException code), w))
  \/ (exists sid s,
         session_id md = Some sid /\ sid <> []
         /\ find (Sql.session_is sid) (sessions st) = Some s).
Proof.
  intro w. destruct (session_id md) as [sid|] eqn:Hsid.
  - destruct sid as [|c sid'].
    + left. exists 400. apply receive_message_no_session_id. now right.
    + destruct (find (Sql.session_is (c :: sid')) (sessions st)) as [s|] eqn:Hf.
      * right. exists (c :: sid'), s. repeat split; [discriminate | exact Hf].
      * left. exists 404.
        now apply (receive_message_not_found amqp md now w Hsid).
  - left. exists 400. apply receive_message_no_session_id. now left.
Qed.

Lemma session_exists_add_message (row : Message.t) (st : Store)
    (sid : pystr) :
  Sql.session_exists (add_message_row row st) sid = Sql.session_exists st sid.
Proof. reflexivity. Qed.

(** X2. [receive_message] keeps the store consistent, however it ends:
    when sessions are unique, message keys distinct and no message or lead
    is without its session before the call, the same holds of the
    committed store after it. *)
Theorem receive_message_keeps_consistent (amqp : BrokerCall -> bool)
    (md : MessageCreate) (now : datetime) (st : Store)
    (log : list BrokerCall) :
  consistent st ->
  consistent (stored (snd (receive_message amqp md now
                             {| db := fresh_session st; broker := log |}))).
Proof.
  intros (Huniq & Hids & Hmsg & Hlead).
  destruct (receive_message_cases amqp md now st log)
    as [(code & ->) | (sid & s & Hsid & Hne & Hfind)].
  - cbn [snd stored db committed fresh_session].
    split; [exact Huniq | split; [exact Hids | split; assumption]].
  - unfold stored.
    rewrite (receive_message_db amqp md now st log Hsid Hne Hfind).
    cbn [committed fresh_session].
    split; [exact Huniq|]. split; [|split].
    + cbn [add_message_row messages]. rewrite map_app. cbn [map].
      apply NoDup_snoc; [exact Hids|]. cbn [with_sent Message.id].
      intro Hin. apply in_map_iff in Hin as (m & Hm & Hin).
      pose proof (new_message_row_above md sid now st m Hin). lia.
    + intros m Hin. rewrite session_exists_add_message.
      cbn [add_message_row messages] in Hin.
      apply in_app_or in Hin as [Hin | [<- | []]]; [now apply Hmsg|].
      cbn [with_sent new_message_row Message.session_id].
      unfold Sql.session_exists. now apply (find_existsb _ _ Hfind).
    + intros l Hin. rewrite session_exists_add_message. now apply Hlead.
Qed.

Lemma sample_one_message_consistent : consistent Sample.one_message.
Proof.
  split; [|split; [|split]].
  - split; cbn; repeat constructor; cbn; tauto.
  - cbn. repeat constructor. cbn. tauto.
  - intros m [<- | []]. reflexivity.
  - intros l [].
Qed.

Lemma receive_message_keeps_consistent_witness :
  consistent Sample.one_message
  /\ consistent
       (stored (snd (receive_message Sample.publish_refused
                       (Sample.hi LEAD (Some (str "s1"))) 9
                       {| db := fresh_session Sample.one_message;
                          broker := [] |}))).
Proof.
  split; [exact sample_one_message_consistent|].
  apply (receive_message_keeps_consistent Sample.publish_refused
           (Sample.hi LEAD (Some (str "s1"))) 9 []
           sample_one_message_consistent).
Defined.


(* ===================================================================== *)
(** ** Further properties: [get_message_history]                          *)
(* ===================================================================== *)

Lemma order_by_nil_iff {A : Type} (key : A -> Z) (l : list A) :
  Sql.order_by key l = [] <-> l = [].
Proof.
  split; intro H; [|now subst].
  destruct l as [|x l]; [reflexivity|].
  pose proof (order_by_perm key (x :: l)) as P. rewrite H in P.
  now apply Permutation_nil in P.
Qed.

(** X4. [get_message_history] answers 404 exactly when no message row has
    the given [session_id] (an unknown session and a session without
    messages are told apart by nothing), and whether it answers or raises
    it leaves the database and the broker untouched. *)
Theorem get_message_history_not_found (session_id : pystr) (w : World) :
  (messages_of session_id (pending (db w)) = []
   <-> fst (get_message_history session_id w) = Raise (HTTPException 404))
  /\ snd (get_message_history session_id w) = w.
Proof.
  unfold get_message_history, bind, query, history_rows.
  fold (messages_of session_id (pending (db w))).
  destruct (Sql.order_by Message.id (messages_of session_id (pending (db w))))
    as [|m rows] eqn:E.
  - apply order_by_nil_iff in E. cbn [fst snd raise]. tauto.
  - cbn [fst snd ret]. split; [|reflexivity]. split; intro H.
    + rewrite H in E. discriminate.
    + discriminate.
Qed.

(** X5. When the session has messages, [get_message_history] answers with
    the text and sender of each of them exactly once, in non-decreasing
    order of [id], in whatever order the engine scans the table. *)
Theorem get_message_history_complete (session_id : pystr) (w : World) :
  messages_of session_id (pending (db w)) <> [] ->
  exists rows,
    get_message_history session_id w = (Return (map history_item rows), w)
    /\ sorted_by Message.id rows
    /\ Permutation rows (messages_of session_id (pending (db w))).
Proof.
  intro Hne.
  destruct (get_message_history_ordered session_id w) as (Hs & Hp & Hr).
  exists (history_rows session_id (pending (db w))).
  split; [|split; assumption].
  apply Hr. intro E. apply Hne.
  unfold history_rows in E. now apply order_by_nil_iff in E.
Qed.

Lemma get_message_history_complete_witness :
  let w := world_of Sample.scanned_newest_first in
  messages_of (str "s1") (pending (db w)) <> []
  /\ exists rows,
       get_message_history (str "s1") w = (Return (map history_item rows), w)
       /\ sorted_by Message.id rows.
Proof.
  intro w.
  assert (Hne : messages_of (str "s1") (pending (db w)) <> [])
    by (vm_compute; discriminate).
  split; [exact Hne|].
  destruct (get_message_history_complete (str "s1") w Hne)
    as (rows & Hr & Hs & _).
  exists rows. now split.
Defined.





(* ===================================================================== *)
(** ** Further properties: the relay                                      *)
(* ===================================================================== *)

Lemma publishes_app (a b : list BrokerCall) :
  publishes (a ++ b) = (publishes a + publishes b)%nat.
Proof. unfold publishes. now rewrite filter_app, length_app. Qed.

Lemma set_sent_pk_twice (pk : Z) (b : bool) (st : Store) :
  Sql.set_sent_pk pk b (Sql.set_sent_pk pk b st) = Sql.set_sent_pk pk b st.
Proof.
  unfold Sql.set_sent_pk. cbn [sessions leads messages]. f_equal.
  rewrite map_map. apply map_ext. intro m.
  destruct (Message.id m =? pk) eqn:E; cbn [Message.id]; now rewrite E.
Qed.

Lemma relay_outcome_up (amqp : BrokerCall -> bool) (body : list N) :
  (forall c, amqp c = true) -> relay_outcome amqp body = Return tt.
Proof.
  intro H. unfold relay_outcome, relay_sequence. cbn [first_refused].
  now rewrite !H.
Qed.

Lemma setup_ok_up (amqp : BrokerCall -> bool) :
  (forall c, amqp c = true) -> setup_ok amqp = true.
Proof. intro H. unfold setup_ok. now rewrite !H. Qed.

(** X7. The relay does not look at the sent flag: with a broker that
    accepts every call, relaying a stored message publishes it, and
    relaying it again publishes it once more; the second run changes
    nothing in the database. *)
Theorem send_to_rabbitmq_publishes_again (amqp : BrokerCall -> bool)
    (d : dict) (w : World) (i : Z) (m : Message.t) :
  dict_get d (str "id") = Some (VInt i) ->
  message_by_id (VInt i) (pending (db w)) = Some m ->
  (forall c, amqp c = true) ->
  let w1 := snd (send_to_rabbitmq amqp d w) in
  let w2 := snd (send_to_rabbitmq amqp d w1) in
  fst (send_to_rabbitmq amqp d w) = Return tt
  /\ fst (send_to_rabbitmq amqp d w1) = Return tt
  /\ publishes (broker w1) = (publishes (broker w) + 1)%nat
  /\ publishes (broker w2) = (publishes (broker w) + 2)%nat
  /\ db w2 = db w1.
Proof.
  intros Hid Hm Hup w1 w2.
  pose proof (send_to_rabbitmq_found amqp d w Hid Hm) as E1.
  assert (Hm1 : message_by_id (VInt i) (pending (db w1))
                = Some (with_sent true m)).
  { subst w1. rewrite E1. cbn [snd db pending fresh_session message_by_id].
    apply (set_sent_pk_find _ _ true Hm). }
  pose proof (send_to_rabbitmq_found amqp d w1 Hid Hm1) as E2.
  subst w2. rewrite E2. subst w1. rewrite E1.
  cbn [fst snd db broker pending fresh_session with_sent Message.id].
  rewrite (relay_outcome_up _ _ Hup), !publishes_app, relay_calls_publishes,
    (setup_ok_up _ Hup), set_sent_pk_twice.
  repeat split; lia.
Qed.

Lemma send_to_rabbitmq_publishes_again_witness :
  let d := message_data_for_rabbitmq Sample.m1 in
  let w := world_of Sample.one_message in
  let w1 := snd (send_to_rabbitmq Sample.broker_up d w) in
  let w2 := snd (send_to_rabbitmq Sample.broker_up d w1) in
  publishes (broker w2) = (publishes (broker w) + 2)%nat /\ db w2 = db w1.
Proof.
  intros d w w1 w2.
  destruct (send_to_rabbitmq_publishes_again Sample.broker_up d w
              (i := 1) (m := Sample.m1) eq_refl eq_refl
              (fun c => eq_refl)) as (_ & _ & _ & H2 & H3).
  split; [exact H2 | exact H3].
Defined.

(** X8. A dictionary without the key [id] makes the relay raise
    [KeyError] before any call on the broker; the handler's rollback then
    discards whatever the session had pending, and what is committed stays
    as it was. A dictionary whose [id] is [None] matches no row: the relay
    returns normally and touches nothing. *)
Theorem send_to_rabbitmq_without_id (amqp : BrokerCall -> bool) (d : dict)
    (w : World) :
  (dict_get d (str "id") = None ->
   send_to_rabbitmq amqp d w
   = (Raise KeyError,
      {| db := fresh_session (committed (db w)); broker := broker w |}))
  /\ (dict_get d (str "id") = Some VNone ->
      send_to_rabbitmq amqp d w = (Return tt, w)).
Proof.
  split; intro H; unfold send_to_rabbitmq, try_except; rewrite H.
  - reflexivity.
  - reflexivity.
Qed.

Lemma send_to_rabbitmq_without_id_witness :
  let w := {| db := {| committed := Sample.one_session;
                       pending := Sample.one_message |};
              broker := [] |} in
  send_to_rabbitmq Sample.broker_up [(str "text", VStr (str "hi"))] w
  = (Raise KeyError, world_of Sample.one_session)
  /\ send_to_rabbitmq Sample.broker_up [(str "id", VNone)] w = (Return tt, w).
Proof.
  intro w. split.
  - apply (proj1 (send_to_rabbitmq_without_id Sample.broker_up
                    [(str "text", VStr (str "hi"))] w)). reflexivity.
  - apply (proj2 (send_to_rabbitmq_without_id Sample.broker_up
                    [(str "id", VNone)] w)). reflexivity.
Defined.

(* ===================================================================== *)
(** ** Further properties: the expiry sweep                               *)
(* ===================================================================== *)

Lemma delete_all_nil (st : Store) : delete_all [] st = st.
Proof. reflexivity. Qed.

(** After the sweep no session older than the cutoff is left. *)
Lemma delete_all_expired_none_left (cutoff : Z) (st : Store) :
  let expired :=
    filter (fun s => Session.last_active s <? cutoff) (sessions st) in
  filter (fun s => Session.last_active s <? cutoff)
         (sessions (delete_all expired st)) = [].
Proof.
  intro expired. rewrite delete_all_sessions, filter_filter.
  apply filter_none. intros r Hr.
  destruct (Session.last_active r <? cutoff) eqn:E; [|apply andb_false_r].
  rewrite andb_true_r. apply negb_false_iff. apply existsb_exists.
  exists r. split; [|apply Z.eqb_refl].
  unfold expired. apply filter_In. now split.
Qed.

(** X9. The sweep is idempotent: run a second time at the same instant,
    it finds no session to delete, returns, and leaves the world of the
    first run as it is. *)
Theorem cleanup_expired_sessions_idempotent (now : datetime) (st : Store)
    (log : list BrokerCall) :
  let w1 := snd (cleanup_expired_sessions now
                   {| db := fresh_session st; broker := log |}) in
  cleanup_expired_sessions now w1 = (Return tt, w1).
Proof.
  intro w1. subst w1. rewrite cleanup_expired_sessions_run. cbn [snd].
  rewrite cleanup_expired_sessions_run.
  now rewrite delete_all_expired_none_left, delete_all_nil.
Qed.

(** Under unique primary keys, the sweep keeps exactly the sessions that
    are not older than the cutoff. *)
Lemma delete_all_expired_sessions (cutoff : Z) (st : Store) :
  NoDup (map Session.id (sessions st)) ->
  sessions (delete_all
              (filter (fun s => Session.last_active s <? cutoff) (sessions st))
              st)
  = filter (fun s => negb (Session.last_active s <? cutoff)) (sessions st).
Proof.
  intro Hpk. rewrite delete_all_sessions. apply filter_ext_in.
  intros r Hr. f_equal.
  destruct (Session.last_active r <? cutoff) eqn:E.
  - apply existsb_exists. exists r. split; [|apply Z.eqb_refl].
    apply filter_In. now split.
  - destruct (existsb _ _) eqn:Ex; [|reflexivity].
    apply existsb_exists in Ex as (s & Hs & Heq).
    apply filter_In in Hs as [Hs Hold]. apply Z.eqb_eq in Heq.
    assert (r = s) by (apply (NoDup_map_inj Session.id _ _ _ Hpk Hr Hs Heq)).
    subst s. congruence.
Qed.

Lemma session_kept_by_sweep (cutoff : Z) (st : Store) (sid : pystr) :
  NoDup (map Session.id (sessions st)) ->
  Sql.session_exists st sid = true ->
  (forall s, In s (sessions st) -> (Session.last_active s <? cutoff) = true ->
             Session.session_id s <> sid) ->
  Sql.session_exists
    (delete_all
       (filter (fun s => Session.last_active s <? cutoff) (sessions st)) st)
    sid = true.
Proof.
  intros Hpk Hex Hlive. unfold Sql.session_exists in *.
  apply existsb_exists in Hex as (s0 & Hs0 & His).
  apply existsb_exists. exists s0. split; [|exact His].
  rewrite (delete_all_expired_sessions cutoff st Hpk). apply filter_In.
  split; [exact Hs0|]. apply negb_true_iff.
  destruct (Session.last_active s0 <? cutoff) eqn:E; [|reflexivity].
  exfalso. apply (Hlive s0 Hs0 E). now apply str_eqb_eq.
Qed.

(** X10. The sweep keeps the store consistent: sessions stay unique,
    message keys distinct, and no message or lead is left behind without
    its session. *)
Theorem cleanup_expired_sessions_keeps_consistent (now : datetime)
    (st : Store) (log : list BrokerCall) :
  consistent st ->
  consistent (stored (snd (cleanup_expired_sessions now
                             {| db := fresh_session st; broker := log |}))).
Proof.
  intros ((Hpk & Hsid) & Hids & Hmsg & Hlead).
  rewrite cleanup_expired_sessions_run.
  cbn [snd stored db committed fresh_session].
  set (cutoff := now - SESSION_LIFETIME).
  set (expired := filter (fun s => Session.last_active s <? cutoff)
                         (sessions st)).
  split; [|split; [|split]].
  - split; rewrite delete_all_sessions;
      now apply filter_keeps_keys_distinct.
  - rewrite delete_all_messages. now apply filter_keeps_keys_distinct.
  - intros m Hin. rewrite delete_all_messages in Hin.
    apply filter_In in Hin as [Hin Hkeep]. apply negb_true_iff in Hkeep.
    apply (@session_kept_by_sweep cutoff st _ Hpk (Hmsg m Hin)).
    intros s Hs Hold E.
    assert (Hex : existsb (fun s => Sql.in_session (Session.session_id s) m)
                          expired = true).
    { apply existsb_exists. exists s. split.
      - unfold expired. apply filter_In. now split.
      - unfold Sql.in_session. rewrite E. apply str_eqb_refl. }
    congruence.
  - intros l Hin. rewrite delete_all_leads in Hin.
    apply filter_In in Hin as [Hin Hkeep]. apply negb_true_iff in Hkeep.
    apply (@session_kept_by_sweep cutoff st _ Hpk (Hlead l Hin)).
    intros s Hs Hold E.
    assert (Hex : existsb (fun s => Sql.lead_of (Session.session_id s) l)
                          expired = true).
    { apply existsb_exists. exists s. split.
      - unfold expired. apply filter_In. now split.
      - unfold Sql.lead_of. rewrite E. apply str_eqb_refl. }
    congruence.
Qed.

Lemma sample_two_sessions_consistent : consistent Sample.two_sessions.
Proof.
  split; [exact sample_two_sessions_unique|]. split; [|split].
  - cbn. repeat constructor; cbn; intuition discriminate.
  - intros m [<- | [<- | []]]; reflexivity.
  - intros l [<- | []]. reflexivity.
Qed.

Lemma cleanup_expired_sessions_keeps_consistent_witness :
  consistent Sample.two_sessions
  /\ consistent
       (stored (snd (cleanup_expired_sessions 200000000
                       {| db := fresh_session Sample.two_sessions;
                          broker := [] |}))).
Proof.
  split; [exact sample_two_sessions_consistent|].
  apply (cleanup_expired_sessions_keeps_consistent 200000000 []
           sample_two_sessions_consistent).
Defined.

(* ===================================================================== *)
(** ** Further properties: session resolution of the user-keyed flow      *)
(* ===================================================================== *)

Lemma create_new_session_collision (user_id uuid4 : pystr) (now : datetime)
    (st : Store) (log : list BrokerCall) :
  Sql.session_exists st uuid4 = true ->
  create_new_session user_id now uuid4
    {| db := fresh_session st; broker := log |}
  = (Raise IntegrityError, {| db := fresh_session st; broker := log |}).
Proof.
  intro H. unfold create_new_session, bind, insert.
  cbn [db pending committed broker fresh_session].
  unfold Sql.insert_session. now rewrite H.
Qed.

(** The store the user-keyed resolution leaves: untouched, one session
    touched, or one session added. *)
Lemma get_or_create_session_stored (key uuid4 : pystr) (now : datetime)
    (st : Store) (log : list BrokerCall) :
  let after :=
    stored (snd (MessagesRouter.get_or_create_session key now uuid4
                   {| db := fresh_session st; broker := log |})) in
  after = st
  \/ (exists s, after = Sql.set_last_active_pk (Session.id s) now st)
  \/ (Sql.session_exists st uuid4 = false
      /\ after = add_session_row (new_session_row uuid4 key now st) st).
Proof.
  cbv zeta.
  assert (Hcreate :
            let after :=
              stored (snd (create_new_session key now uuid4
                             {| db := fresh_session st; broker := log |})) in
            after = st
            \/ (Sql.session_exists st uuid4 = false
                /\ after = add_session_row (new_session_row uuid4 key now st) st)).
  { cbv zeta. destruct (Sql.session_exists st uuid4) eqn:E.
    - left. now rewrite create_new_session_collision.
    - right. split; [reflexivity|]. now rewrite create_new_session_fresh. }
  set (w := {| db := fresh_session st; broker := log |}) in *.
  assert (Hr : MessagesRouter.get_or_create_session key now uuid4 w
               = create_new_session key now uuid4 w
               \/ exists s,
                    MessagesRouter.get_or_create_session key now uuid4 w
                    = (Return (Session.session_id s),
                       {| db := fresh_session
                                  (Sql.set_last_active_pk (Session.id s) now st);
                          broker := log |})).
  { destruct (find (Sql.user_is key) (sessions st)) as [s|] eqn:Hf.
    - destruct (now - Session.last_active s >? SESSION_LIFETIME) eqn:Hg.
      + left. unfold MessagesRouter.get_or_create_session, bind at 1, query.
        cbn [db pending fresh_session w]. now rewrite Hf, Hg.
      + right. exists s.
        unfold MessagesRouter.get_or_create_session, bind at 1, query.
        cbn [db pending fresh_session w]. now rewrite Hf, Hg.
    - left. unfold MessagesRouter.get_or_create_session, bind at 1, query.
      cbn [db pending fresh_session w]. now rewrite Hf. }
  destruct Hr as [-> | (s & ->)].
  - destruct Hcreate as [H | H]; [left; exact H | right; right; exact H].
  - right. left. exists s. reflexivity.
Qed.

Lemma session_exists_set_last_active (pk : Z) (now : datetime) (st : Store)
    (sid : pystr) :
  Sql.session_exists (Sql.set_last_active_pk pk now st) sid
  = Sql.session_exists st sid.
Proof.
  unfold Sql.session_exists, Sql.set_last_active_pk. cbn [sessions].
  induction (sessions st) as [|x l IH]; cbn [map existsb]; [reflexivity|].
  rewrite IH. f_equal. now destruct (Session.id x =? pk).
Qed.

Lemma session_exists_add_session (row : Session.t) (st : Store)
    (sid : pystr) :
  Sql.session_exists st sid = true ->
  Sql.session_exists (add_session_row row st) sid = true.
Proof.
  unfold Sql.session_exists, add_session_row. cbn [sessions].
  intro H. rewrite existsb_app, H. reflexivity.
Qed.

(** X11. Session resolution of the user-keyed flow keeps the store
    consistent in each of its branches: touching a session changes no key,
    a new session gets a primary key and a [session_id] no stored session
    has, and messages and leads keep their sessions. *)
Theorem get_or_create_session_keeps_consistent (key uuid4 : pystr)
    (now : datetime) (st : Store) (log : list BrokerCall) :
  consistent st ->
  consistent
    (stored (snd (MessagesRouter.get_or_create_session key now uuid4
                    {| db := fresh_session st; broker := log |}))).
Proof.
  intros (Huniq & Hids & Hmsg & Hlead).
  destruct (get_or_create_session_stored key uuid4 now st log)
    as [-> | [(s & ->) | (Hfresh & ->)]].
  - split; [exact Huniq | split; [exact Hids | split; assumption]].
  - split; [now apply set_last_active_unique|]. split; [exact Hids|].
    split; intros x Hx; rewrite session_exists_set_last_active;
      [now apply Hmsg | now apply Hlead].
  - split; [|split; [exact Hids|]].
    + apply (@insert_session_unique st _ uuid4 (Some key) now now
               (new_session_row uuid4 key now st) Huniq).
      unfold Sql.insert_session. now rewrite Hfresh.
    + split; intros x Hx; apply session_exists_add_session;
        [now apply Hmsg | now apply Hlead].
Qed.

Lemma get_or_create_session_keeps_consistent_witness :
  consistent Sample.one_message
  /\ consistent
       (stored (snd (MessagesRouter.get_or_create_session (str "u1")
                       500000000 (str "fresh")
                       {| db := fresh_session Sample.one_message;
                          broker := [] |}))).
Proof.
  split; [exact sample_one_message_consistent|].
  apply (get_or_create_session_keeps_consistent (str "u1") (str "fresh")
           500000000 [] sample_one_message_consistent).
Defined.

(** X12. When the user has no session, or only an expired first one, and
    the generated identifier is already the [session_id] of a stored
    session, the unique constraint refuses the insert: the resolution
    raises an integrity error and the store is as it was. *)
Theorem get_or_create_session_collision (key uuid4 : pystr) (now : datetime)
    (st : Store) (log : list BrokerCall) :
  find (Sql.user_is key) (sessions st) = None
  \/ (exists s, find (Sql.user_is key) (sessions st) = Some s
                /\ SESSION_LIFETIME < now - Session.last_active s) ->
  Sql.session_exists st uuid4 = true ->
  MessagesRouter.get_or_create_session key now uuid4
    {| db := fresh_session st; broker := log |}
  = (Raise IntegrityError, {| db := fresh_session st; broker := log |}).
Proof.
  intros Hcase Hdup.
  unfold MessagesRouter.get_or_create_session. unfold bind at 1.
  unfold query at 1. cbn [db pending fresh_session].
  destruct Hcase as [-> | (s & -> & Hgt)].
  - now apply create_new_session_collision.
  - rewrite Z.gtb_ltb.
    destruct (Z.ltb_spec SESSION_LIFETIME (now - Session.last_active s));
      [|lia].
    now apply create_new_session_collision.
Qed.

Lemma get_or_create_session_collision_witness :
  MessagesRouter.get_or_create_session (str "u1") 500000000 (str "s1")
    {| db := fresh_session Sample.one_session; broker := [] |}
  = (Raise IntegrityError,
     {| db := fresh_session Sample.one_session; broker := [] |}).
Proof.
  apply get_or_create_session_collision; [|reflexivity].
  right. exists Sample.s1. split; [reflexivity | vm_compute; reflexivity].
Defined.

(* ===================================================================== *)
(** ** Further properties: the data access functions of [get_message]     *)
(* ===================================================================== *)

Lemma filter_session_is_unique (sid : pystr) (l : list Session.t) :
  NoDup (map Session.session_id l) ->
  filter (Sql.session_is sid) l = []
  \/ exists s, filter (Sql.session_is sid) l = [s].
Proof.
  induction l as [|x l IH]; cbn [map filter]; intro H; [now left|].
  inversion H as [|? ? Hx Hl]; subst.
  destruct (Sql.session_is sid x) eqn:E; [|now apply IH].
  right. exists x. f_equal. apply filter_none. intros y Hy.
  destruct (Sql.session_is sid y) eqn:Ey; [|reflexivity].
  exfalso. apply Hx. apply str_eqb_eq in E. apply str_eqb_eq in Ey.
  rewrite E, <- Ey. now apply in_map.
Qed.

Lemma session_exists_filter (sid : pystr) (st : Store) :
  Sql.session_exists st sid = false
  <-> filter (Sql.session_is sid) (sessions st) = [].
Proof.
  unfold Sql.session_exists. split; intro H.
  - apply filter_none. intros x Hx.
    destruct (Sql.session_is sid x) eqn:E; [|reflexivity].
    assert (existsb (Sql.session_is sid) (sessions st) = true)
      by (apply existsb_exists; now exists x).
    congruence.
  - apply find_none_existsb. now apply find_none_filter.
Qed.

(** X13. On a store with unique sessions [get_session] never raises: it
    returns [None] when no session has the given [session_id], and
    otherwise the one stored session that has it. Nothing is written. *)
Theorem get_session_unique (sid : pystr) (st : Store)
    (log : list BrokerCall) :
  sessions_unique st ->
  let w := {| db := fresh_session st; broker := log |} in
  (Sql.session_exists st sid = false /\ Crud.get_session sid w = (Return None, w))
  \/ (exists s,
         Crud.get_session sid w = (Return (Some s), w)
         /\ In s (sessions st) /\ Session.session_id s = sid).
Proof.
  intros [_ Hsid] w. unfold Crud.get_session, bind, query.
  cbn [db pending fresh_session w].
  destruct (filter_session_is_unique sid (sessions st) Hsid)
    as [E | (s & E)]; rewrite E; cbn [Crud.scalar_one_or_none ret].
  - left. split; [now apply session_exists_filter | reflexivity].
  - right. exists s. split; [reflexivity|].
    assert (Hin : In s (filter (Sql.session_is sid) (sessions st)))
      by (rewrite E; now left).
    apply filter_In in Hin as [Hin His]. split; [exact Hin|].
    now apply str_eqb_eq.
Qed.

Lemma get_session_unique_witness :
  let w := {| db := fresh_session Sample.two_sessions; broker := [] |} in
  sessions_unique Sample.two_sessions
  /\ ((Sql.session_exists Sample.two_sessions (str "new") = false
       /\ Crud.get_session (str "new") w = (Return None, w))
      \/ exists s,
           Crud.get_session (str "new") w = (Return (Some s), w)
           /\ In s (sessions Sample.two_sessions)
           /\ Session.session_id s = str "new").
Proof.
  intro w. split; [exact sample_two_sessions_unique|].
  apply (get_session_unique (str "new") [] sample_two_sessions_unique).
Defined.

(** X14. [update_last_active] changes one column of the sessions that
    have the given [session_id] and nothing else: leads and messages, the
    number of sessions and every other session are as before, and on an
    unknown [session_id] it returns without error and leaves the store
    unchanged. *)
Theorem update_last_active_frame (sid : pystr) (now : datetime) (st : Store)
    (log : list BrokerCall) :
  let r := Crud.update_last_active sid now
             {| db := fresh_session st; broker := log |} in
  let after := stored (snd r) in
  fst r = Return tt
  /\ leads after = leads st /\ messages after = messages st
  /\ map Session.id (sessions after) = map Session.id (sessions st)
  /\ map Session.session_id (sessions after)
     = map Session.session_id (sessions st)
  /\ (forall s, In s (sessions after) -> Session.session_id s = sid ->
                Session.last_active s = now)
  /\ (forall s, In s (sessions st) -> Session.session_id s <> sid ->
                In s (sessions after))
  /\ (Sql.session_exists st sid = false -> after = st).
Proof.
  cbv zeta. unfold Crud.update_last_active, bind, execute, commit, stored.
  cbn [fst snd db pending committed fresh_session].
  destruct (touch_unique (Sql.session_is sid) now st) as [Hpk Hsid].
  split; [reflexivity|]. split; [reflexivity|]. split; [reflexivity|].
  split; [exact Hpk|]. split; [exact Hsid|]. split; [|split].
  - intros s Hin Hs. cbn [Sql.update_last_active_where sessions] in Hin.
    apply in_map_iff in Hin as (x & Hx & _).
    destruct (Sql.session_is sid x) eqn:E; subst s; [reflexivity|].
    apply str_eqb_neq in E. contradiction.
  - intros s Hin Hs. cbn [Sql.update_last_active_where sessions].
    apply in_map_iff. exists s. split; [|exact Hin].
    destruct (Sql.session_is sid s) eqn:E; [|reflexivity].
    apply str_eqb_eq in E. contradiction.
  - intro Hno. unfold Sql.update_last_active_where.
    destruct st as [ss ls ms]. cbn [sessions leads messages] in *. f_equal.
    rewrite <- (map_id ss) at 2. apply map_ext_in. intros x Hx.
    destruct (Sql.session_is sid x) eqn:E; [|reflexivity].
    unfold Sql.session_exists in Hno. cbn [sessions] in Hno.
    assert (existsb (Sql.session_is sid) ss = true)
      by (apply existsb_exists; now exists x).
    congruence.
Qed.

Lemma create_lead_run (sid : pystr) (st : Store) (log : list BrokerCall) :
  Sql.session_exists st sid = true ->
  Crud.create_lead sid {| db := fresh_session st; broker := log |}
  = (Return (new_lead_row sid st),
     {| db := fresh_session
                {| sessions := sessions st;
                   leads := leads st ++ [new_lead_row sid st];
                   messages := messages st |};
        broker := log |}).
Proof.
  intro H. unfold Crud.create_lead, bind, insert, commit, ret.
  cbn [db pending committed broker fresh_session].
  unfold Sql.insert_lead. now rewrite H.
Qed.

(** X15. [create_lead] does not look for a lead the session may already
    have: on a stored session every call commits one more lead with the
    placeholder names, so the session's leads grow by one each time; on a
    [session_id] no session has, the foreign key refuses the insert and
    the store is unchanged. *)
Theorem create_lead_adds_a_lead (sid : pystr) (st : Store)
    (log : list BrokerCall) :
  let w := {| db := fresh_session st; broker := log |} in
  (Sql.session_exists st sid = true ->
   fst (Crud.create_lead sid w) = Return (new_lead_row sid st)
   /\ leads (stored (snd (Crud.create_lead sid w)))
      = leads st ++ [new_lead_row sid st]
   /\ leads_of sid (stored (snd (Crud.create_lead sid w)))
      = leads_of sid st ++ [new_lead_row sid st])
  /\ (Sql.session_exists st sid = false ->
      Crud.create_lead sid w = (Raise IntegrityError, w)).
Proof.
  intro w. split; intro H.
  - unfold w. rewrite (create_lead_run sid st log H).
    cbn [fst snd stored db committed fresh_session leads].
    split; [reflexivity|]. split; [reflexivity|].
    unfold leads_of. cbn [leads]. rewrite filter_app. cbn [filter].
    assert (E : Sql.lead_of sid (new_lead_row sid st) = true)
      by apply str_eqb_refl.
    now rewrite E.
  - unfold w, Crud.create_lead, bind, insert.
    cbn [db pending committed broker fresh_session].
    unfold Sql.insert_lead. now rewrite H.
Qed.

Lemma create_lead_adds_a_lead_witness :
  let w := {| db := fresh_session Sample.two_sessions; broker := [] |} in
  List.length (leads_of (str "old") Sample.two_sessions) = 1%nat
  /\ List.length (leads_of (str "old")
                    (stored (snd (Crud.create_lead (str "old") w)))) = 2%nat
  /\ Crud.create_lead (str "nope") w = (Raise IntegrityError, w).
Proof.
  intro w.
  destruct (create_lead_adds_a_lead (str "old") Sample.two_sessions [])
    as [Hadd _].
  destruct (create_lead_adds_a_lead (str "nope") Sample.two_sessions [])
    as [_ Hno].
  destruct (Hadd eq_refl) as (_ & _ & Hl).
  split; [reflexivity|]. split.
  - unfold w. rewrite Hl. reflexivity.
  - apply Hno. reflexivity.
Defined.

Lemma find_app {A : Type} (p : A -> bool) (a b : list A) :
  find p (a ++ b) = match find p a with
                    | Some x => Some x
                    | None => find p b
                    end.
Proof.
  induction a as [|x a IH]; cbn [app find]; [reflexivity|].
  now destruct (p x).
Qed.

(** X16. After [create_lead] on a stored session, [get_lead_by_session]
    finds a lead for it: the one just created when the session had none,
    and the lead it already had otherwise. *)
Theorem create_lead_then_lookup (sid : pystr) (st : Store)
    (log : list BrokerCall) :
  Sql.session_exists st sid = true ->
  let w' := snd (Crud.create_lead sid
                   {| db := fresh_session st; broker := log |}) in
  Crud.get_lead_by_session sid w'
  = (Return (Some match find (Sql.lead_of sid) (leads st) with
                  | Some first => first
                  | None => new_lead_row sid st
                  end), w').
Proof.
  intros H w'. subst w'. rewrite (create_lead_run sid st log H).
  unfold Crud.get_lead_by_session, try_except, query.
  cbn [snd db pending fresh_session leads]. rewrite find_app.
  destruct (find (Sql.lead_of sid) (leads st)); [reflexivity|].
  cbn [find]. assert (E : Sql.lead_of sid (new_lead_row sid st) = true)
    by apply str_eqb_refl.
  now rewrite E.
Qed.

Lemma create_lead_then_lookup_witness :
  let w' := snd (Crud.create_lead (str "new")
                   {| db := fresh_session Sample.two_sessions;
                      broker := [] |}) in
  fst (Crud.get_lead_by_session (str "new") w')
  = Return (Some (Lead.mk 2 (Some Crud.NEW_FIRST_NAME)
                          (Some Crud.NEW_LAST_NAME) (str "new"))).
Proof.
  intro w'. subst w'.
  rewrite (create_lead_then_lookup (str "new") Sample.two_sessions []
             eq_refl).
  reflexivity.
Defined.

Lemma crud_get_or_create_session_run (sid uuid4 : pystr) (now : datetime)
    (st : Store) (log : list BrokerCall) :
  let w := {| db := fresh_session st; broker := log |} in
  (filter (Sql.session_is sid) (sessions st) = [] ->
   Crud.get_or_create_session sid now uuid4 w = Crud.create_session now uuid4 w)
  /\ (forall s,
         filter (Sql.session_is sid) (sessions st) = [s] ->
         Crud.get_or_create_session sid now uuid4 w
         = (Return sid,
            {| db := fresh_session (Sql.update_last_active_where sid now st);
               broker := log |})).
Proof.
  intro w. split.
  - intro H. unfold Crud.get_or_create_session, Crud.get_session.
    unfold bind at 1. unfold bind at 1. unfold query at 1.
    cbn [db pending fresh_session w]. now rewrite H.
  - intros s H. unfold Crud.get_or_create_session, Crud.get_session.
    unfold bind at 1. unfold bind at 1. unfold query at 1.
    cbn [db pending fresh_session w]. now rewrite H.
Qed.

(** X17. The two session-keyed resolutions, [get_or_create_session] of
    [get_message/crud.py] and of [get_message/router.py], do the same on a
    [session_id] that is unknown or whose session was active within the
    hour. They part on a session idle for an hour or more: the one of
    [crud.py] has no time limit and returns the session with its
    [last_active] renewed, the one of [router.py] goes on to create a
    session, which the store refuses, and changes nothing. *)
Theorem get_or_create_session_flows (sid uuid4 : pystr) (now : datetime)
    (st : Store) (log : list BrokerCall) :
  let w := {| db := fresh_session st; broker := log |} in
  (filter (Sql.session_is sid) (sessions st) = [] ->
   GetMessageRouter.get_or_create_session sid now uuid4 w
   = Crud.get_or_create_session sid now uuid4 w)
  /\ (forall s,
         filter (Sql.session_is sid) (sessions st) = [s] ->
         (now - Session.last_active s < GetMessageRouter.SESSION_TIMEOUT ->
          GetMessageRouter.get_or_create_session sid now uuid4 w
          = Crud.get_or_create_session sid now uuid4 w)
         /\ (GetMessageRouter.SESSION_TIMEOUT <= now - Session.last_active s ->
             Crud.get_or_create_session sid now uuid4 w
             = (Return sid,
                {| db := fresh_session
                           (Sql.update_last_active_where sid now st);
                   broker := log |})
             /\ GetMessageRouter.get_or_create_session sid now uuid4 w
                = (Raise IntegrityError, w))).
Proof.
  intro w.
  destruct (crud_get_or_create_session_run sid uuid4 now st log)
    as [Hnone Hone]. fold w in Hnone, Hone.
  split.
  - intro H. rewrite (Hnone H).
    unfold GetMessageRouter.get_or_create_session, Crud.get_session.
    unfold bind at 1. unfold bind at 1. unfold query at 1.
    cbn [db pending fresh_session w]. now rewrite H.
  - intros s H. rewrite (Hone s H).
    assert (Hr : GetMessageRouter.get_or_create_session sid now uuid4 w
                 = if now - Session.last_active s
                      <? GetMessageRouter.SESSION_TIMEOUT
                   then (Return sid,
                         {| db := fresh_session
                                    (Sql.update_last_active_where sid now st);
                            broker := log |})
                   else Crud.create_session now uuid4 w).
    { unfold GetMessageRouter.get_or_create_session, Crud.get_session.
      unfold bind at 1. unfold bind at 1. unfold query at 1.
      cbn [db pending fresh_session w]. rewrite H.
      cbn [Crud.scalar_one_or_none ret].
      now destruct (now - Session.last_active s
                    <? GetMessageRouter.SESSION_TIMEOUT). }
    rewrite Hr. split; intro Ht.
    + destruct (Z.ltb_spec (now - Session.last_active s)
                           GetMessageRouter.SESSION_TIMEOUT); [reflexivity|lia].
    + destruct (Z.ltb_spec (now - Session.last_active s)
                           GetMessageRouter.SESSION_TIMEOUT); [lia|].
      split; [reflexivity|]. apply create_session_rejected.
Qed.

Lemma get_or_create_session_flows_witness :
  let w := {| db := fresh_session Sample.one_session; broker := [] |} in
  fst (Crud.get_or_create_session (str "s1") 7200000000 (str "fresh") w)
  = Return (str "s1")
  /\ GetMessageRouter.get_or_create_session (str "s1") 7200000000
       (str "fresh") w
     = (Raise IntegrityError, w)
  /\ GetMessageRouter.get_or_create_session (str "zz") 7 (str "fresh") w
     = Crud.get_or_create_session (str "zz") 7 (str "fresh") w.
Proof.
  intro w.
  destruct (get_or_create_session_flows (str "s1") (str "fresh") 7200000000
              Sample.one_session []) as [_ Hone].
  destruct (Hone Sample.s1 eq_refl) as [_ Hold].
  destruct (Hold ltac:(vm_compute; discriminate)) as [Hc Hr].
  destruct (get_or_create_session_flows (str "zz") (str "fresh") 7
              Sample.one_session []) as [Hnone _].
  split; [|split].
  - unfold w. now rewrite Hc.
  - exact Hr.
  - apply Hnone. reflexivity.
Defined.

(** X18. [create_message] never stores a message: on every request and
    every store it ends in an error of the store, an integrity error (the
    insert of the message leaves out [role], the insert of a session for
    an unknown [session_id] leaves out [user_id]) or, with two sessions of
    one [session_id], [MultipleResultsFound]; the messages table is as it
    was before the call. *)
Theorem create_message_stores_no_message
    (message : GetMessageSchemas.MessageCreate) (now : datetime)
    (uuid4 : pystr) (st : Store) (log : list BrokerCall) :
  let r := Crud.create_message message now uuid4
             {| db := fresh_session st; broker := log |} in
  (fst r = Raise IntegrityError \/ fst r = Raise MultipleResultsFound)
  /\ messages (stored (snd r)) = messages st.
Proof.
  cbv zeta. set (w := {| db := fresh_session st; broker := log |}).
  destruct (filter (Sql.session_is (GetMessageSchemas.session_id message))
                   (sessions st)) as [|s [|s' rows]] eqn:Hrows.
  - assert (E : Crud.create_message message now uuid4 w
                = (Raise IntegrityError, w)).
    { unfold Crud.create_message, Crud.get_session.
      unfold bind at 1. unfold bind at 1. unfold query at 1.
      cbn [db pending fresh_session w]. rewrite Hrows.
      cbn [Crud.scalar_one_or_none ret].
      unfold bind at 1. unfold w.
      now rewrite (create_session_rejected uuid4 now st log). }
    rewrite E. split; [now left | reflexivity].
  - unfold w. rewrite (create_message_run message now uuid4 st log Hrows).
    cbn [fst snd stored db committed fresh_session]. split; [now left|].
    now destruct (find _ (leads st)).
  - assert (E : Crud.create_message message now uuid4 w
                = (Raise MultipleResultsFound, w)).
    { unfold Crud.create_message, Crud.get_session.
      unfold bind at 1. unfold bind at 1. unfold query at 1.
      cbn [db pending fresh_session w]. now rewrite Hrows. }
    rewrite E. split; [now right | reflexivity].
Qed.

(* ===================================================================== *)
(** ** The listings of [messages/router.py]                               *)
(* ===================================================================== *)

(** *** Ordering by a comparison *)

Section OrderWith.

Variable A : Type.
Variable before : A -> A -> bool.

Lemma insert_with_perm (x : A) (l : list A) :
  Permutation (Sql.insert_with before x l) (x :: l).
Proof.
  induction l as [|y l IH]; cbn [Sql.insert_with]; [reflexivity|].
  destruct (before x y); [reflexivity|].
  rewrite IH. apply perm_swap.
Qed.

Lemma order_with_perm (l : list A) : Permutation (Sql.order_with before l) l.
Proof.
  induction l as [|x l IH]; cbn [Sql.order_with]; [reflexivity|].
  rewrite insert_with_perm. now constructor.
Qed.

Lemma order_with_nil_iff (l : list A) : Sql.order_with before l = [] <-> l = [].
Proof.
  split; intro H; [|now subst].
  pose proof (order_with_perm l) as Hp. rewrite H in Hp.
  now apply Permutation_nil in Hp.
Qed.


Hypothesis before_asym : forall x y, before x y = true -> before y x = false.
Hypothesis before_trans :
  forall x y z, before x y = true -> before z y = false -> before z x = false.

Lemma insert_with_sorted (x : A) (l : list A) :
  StronglySorted (fun a b => before b a = false) l ->
  StronglySorted (fun a b => before b a = false) (Sql.insert_with before x l).
Proof.
  induction 1 as [|y l Hs IH Hy]; cbn [Sql.insert_with].
  - repeat constructor.
  - rewrite Forall_forall in Hy. destruct (before x y) eqn:E.
    + constructor; [now constructor; [|apply Forall_forall]|].
      constructor; [now apply before_asym|].
      apply Forall_forall. intros z Hz.
      apply (before_trans E). now apply Hy.
    + constructor; [exact IH|].
      apply Forall_forall. intros z Hz.
      apply (Permutation_in _ (insert_with_perm x l)) in Hz.
      destruct Hz as [<-|Hz]; [exact E | now apply Hy].
Qed.

Lemma order_with_sorted (l : list A) :
  StronglySorted (fun a b => before b a = false) (Sql.order_with before l).
Proof.
  induction l as [|x l IH]; cbn [Sql.order_with]; [constructor|].
  now apply insert_with_sorted.
Qed.

End OrderWith.

Lemma created_before_asym (x y : Message.t) :
  Sql.created_before x y = true -> Sql.created_before y x = false.
Proof.
  unfold Sql.created_before.
  destruct (Message.created_at x), (Message.created_at y);
    try discriminate; try reflexivity.
  rewrite Z.ltb_lt, Z.ltb_ge. lia.
Qed.

Lemma created_before_trans (x y z : Message.t) :
  Sql.created_before x y = true -> Sql.created_before z y = false ->
  Sql.created_before z x = false.
Proof.
  unfold Sql.created_before.
  destruct (Message.created_at x), (Message.created_at y),
    (Message.created_at z); try discriminate; try reflexivity.
  rewrite Z.ltb_lt, !Z.ltb_ge. lia.
Qed.

Lemma role_in_lead_bot_iff (m : Message.t) :
  Sql.role_in_lead_bot m = true
  <-> Message.role m = Some LEAD \/ Message.role m = Some BOT.
Proof.
  unfold Sql.role_in_lead_bot.
  destruct (Message.role m) as [[| |]|]; split;
    try tauto; try discriminate; intros [H|H]; discriminate.
Qed.

(** X19. [get_lead_and_bot_messages] answers with the LEAD and BOT
    messages of the session, each exactly once and no other row (a MANAGER
    message or one without a role never shows), in non-decreasing order of
    [created_at] with the rows that have none last. It answers 404 exactly
    when the session has no LEAD or BOT message, also when it has others,
    and it changes nothing. *)
Theorem get_lead_and_bot_messages_rows (session_id : pystr) (w : World) :
  let st := pending (db w) in
  let rows := lead_and_bot_rows session_id st in
  Permutation rows
    (filter Sql.role_in_lead_bot (messages_of session_id st))
  /\ Forall (fun m => In m (messages st)
                      /\ Message.session_id m = session_id
                      /\ (Message.role m = Some LEAD
                          \/ Message.role m = Some BOT)) rows
  /\ StronglySorted created_not_after rows
  /\ (get_lead_and_bot_messages session_id w = (Raise (HTTPException 404), w)
      <-> forall m, In m (messages_of session_id st) ->
                    Sql.role_in_lead_bot m = false)
  /\ (rows <> [] ->
      get_lead_and_bot_messages session_id w
      = (Return (session_id, map view_of rows), w)).
Proof.
  intros st rows.
  assert (Hp : Permutation rows
                 (filter Sql.role_in_lead_bot (messages_of session_id st))).
  { unfold rows, lead_and_bot_rows, messages_of. rewrite filter_filter.
    apply order_with_perm. }
  assert (Hrun : get_lead_and_bot_messages session_id w
                 = (match rows with
                    | [] => Raise (HTTPException 404)
                    | _ => Return (session_id, map view_of rows)
                    end, w)).
  { unfold get_lead_and_bot_messages, bind, query. fold st. fold rows.
    now destruct rows. }
  split; [exact Hp|]. split; [|split; [|split]].
  - apply Forall_forall. intros m Hm.
    apply (Permutation_in _ Hp) in Hm. apply filter_In in Hm as [Hm Hr].
    apply filter_In in Hm as [Hm Hs]. split; [exact Hm|]. split.
    + now apply str_eqb_eq in Hs.
    + now apply role_in_lead_bot_iff.
  - unfold rows, lead_and_bot_rows, created_not_after.
    apply order_with_sorted.
    + apply created_before_asym.
    + apply created_before_trans.
  - rewrite Hrun. split.
    + intros H m Hm.
      destruct (Sql.role_in_lead_bot m) eqn:Hr; [|reflexivity].
      assert (Hin : In m rows).
      { apply (Permutation_in _ (Permutation_sym Hp)).
        apply filter_In. now split. }
      destruct rows; [contradiction | discriminate].
    + intro H. rewrite (filter_none _ _ H) in Hp.
      apply Permutation_sym, Permutation_nil in Hp. now rewrite Hp.
  - intro Hne. rewrite Hrun. now destruct rows.
Qed.

(** *** The last row of a scan *)

Lemma last_row_app {A : Type} (l : list A) (x : A) :
  last_row (l ++ [x]) = Some x.
Proof.
  induction l as [|y l IH]; [reflexivity|].
  cbn [app last_row]. rewrite IH. now destruct l.
Qed.

Lemma last_row_rev {A : Type} (l : list A) : last_row l = hd_error (rev l).
Proof.
  destruct l as [|x l] using rev_ind; [reflexivity|].
  now rewrite last_row_app, rev_app_distr.
Qed.

Lemma last_row_in {A : Type} (l : list A) (m : A) :
  last_row l = Some m -> In m l.
Proof.
  rewrite last_row_rev. intro H. apply in_rev.
  destruct (rev l); [discriminate|]. injection H as ->. now left.
Qed.

Lemma last_row_nil_iff {A : Type} (l : list A) : last_row l = None <-> l = [].
Proof.
  destruct l as [|x l] using rev_ind; [tauto|].
  rewrite last_row_app. split; [discriminate|].
  intro H. now apply app_eq_nil in H as [_ H].
Qed.

Lemma last_row_greatest {A : Type} (key : A -> Z) (l : list A) (m : A) :
  sorted_by key l -> last_row l = Some m ->
  forall x, In x l -> key x <= key m.
Proof.
  unfold sorted_by. induction 1 as [|y l Hs IH Hy]; [discriminate|].
  intros Hm x Hx. destruct l as [|z l].
  - injection Hm as <-. destruct Hx as [->|[]]. lia.
  - change (last_row (z :: l) = Some m) in Hm.
    rewrite Forall_forall in Hy. destruct Hx as [<-|Hx].
    + apply Hy. now apply last_row_in.
    + now apply IH.
Qed.

(** X20. When the messages table is scanned in order of [id],
    [get_chats_with_last_message] shows for each session its newest
    message: the answer has one chat for each session, in the order of the
    sessions, a session without messages shows the placeholder text and no
    time, and any other shows the text and time of a message of the session
    whose [id] none of its messages exceeds. Without sessions the answer is
    404. Nothing is changed. *)
Theorem get_chats_with_last_message_newest (w : World) :
  let st := pending (db w) in
  sorted_by Message.id (messages st) ->
  (sessions st = [] ->
   get_chats_with_last_message w = (Raise (HTTPException 404), w))
  /\ (sessions st <> [] ->
      exists chats,
        get_chats_with_last_message w = (Return chats, w)
        /\ map Chat.session_id chats = map Session.session_id (sessions st)
        /\ Forall
             (fun c =>
                let msgs := messages_of (Chat.session_id c) st in
                (msgs = [] /\ Chat.last_message c = NO_MESSAGES_YET
                 /\ Chat.last_message_time c = None)
                \/ (exists m,
                      In m msgs
                      /\ (forall m', In m' msgs ->
                                     Message.id m' <= Message.id m)
                      /\ Chat.last_message c = Message.text m
                      /\ Chat.last_message_time c
                         = option_map isoformat (Message.created_at m)))
             chats).
Proof.
  intros st Hsorted.
  assert (Hrun : get_chats_with_last_message w
                 = (match sessions st with
                    | [] => Raise (HTTPException 404)
                    | _ => Return (map (chat_of st) (sessions st))
                    end, w)).
  { unfold get_chats_with_last_message, bind, query. fold st.
    now destruct (sessions st). }
  split; intro Hs; rewrite Hrun.
  - now rewrite Hs.
  - exists (map (chat_of st) (sessions st)). split; [|split].
    + now destruct (sessions st).
    + rewrite map_map. reflexivity.
    + apply Forall_forall. intros c Hc.
      apply in_map_iff in Hc as [s [<- _]].
      unfold chat_of. cbn [Chat.session_id Chat.last_message
                             Chat.last_message_time].
      unfold session_messages, messages_of.
      set (msgs := filter (Sql.in_session (Session.session_id s))
                          (messages st)).
      destruct (last_row msgs) as [m|] eqn:Hlast.
      * right. exists m. split; [now apply last_row_in|]. split.
        -- apply (last_row_greatest (key := Message.id)); [|exact Hlast].
           now apply filter_sorted.
        -- split; [reflexivity | now destruct (Message.created_at m)].
      * left. apply last_row_nil_iff in Hlast. now rewrite Hlast.
Qed.

Lemma get_chats_with_last_message_newest_witness :
  let w := {| db := fresh_session Sample.two_sessions; broker := [] |} in
  exists chats,
    get_chats_with_last_message w = (Return chats, w)
    /\ map Chat.session_id chats = [str "old"; str "new"].
Proof.
  cbv zeta.
  destruct (@get_chats_with_last_message_newest
              {| db := fresh_session Sample.two_sessions; broker := [] |})
    as [_ H].
  - repeat constructor; cbn; lia.
  - destruct H as [chats [Hrun [Hids _]]]; [discriminate|].
    exists chats. split; [exact Hrun | exact Hids].
Defined.

(* ===================================================================== *)
(** ** The listing of [get_message/router.py]                             *)
(* ===================================================================== *)

Lemma id_after_asym (x y : Message.t) :
  Sql.id_after x y = true -> Sql.id_after y x = false.
Proof. unfold Sql.id_after. rewrite Z.ltb_lt, Z.ltb_ge. lia. Qed.

Lemma id_after_trans (x y z : Message.t) :
  Sql.id_after x y = true -> Sql.id_after z y = false ->
  Sql.id_after z x = false.
Proof. unfold Sql.id_after. rewrite Z.ltb_lt, !Z.ltb_ge. lia. Qed.

(** The subquery finds nothing when the session has no message, and
    otherwise the text of a message of the session with the greatest
    [id]. *)
Lemma last_message_scalar_newest (sid : pystr) (st : Store) :
  (messages_of sid st = []
   /\ GetMessageRouter.last_message_scalar sid st = None)
  \/ (exists m,
        In m (messages_of sid st)
        /\ (forall m', In m' (messages_of sid st) ->
                       Message.id m' <= Message.id m)
        /\ GetMessageRouter.last_message_scalar sid st
           = Some (Message.text m)).
Proof.
  unfold GetMessageRouter.last_message_scalar, messages_of.
  set (msgs := filter (Sql.in_session sid) (messages st)).
  pose proof (order_with_perm Sql.id_after msgs) as Hp.
  pose proof (@order_with_sorted _ _ id_after_asym id_after_trans msgs)
    as Hs.
  destruct (Sql.order_with Sql.id_after msgs) as [|m rest] eqn:E.
  - left. split; [|reflexivity]. now apply order_with_nil_iff in E.
  - right. exists m. split; [|split; [|reflexivity]].
    + apply (Permutation_in _ Hp). now left.
    + intros m' Hm'. apply (Permutation_in _ (Permutation_sym Hp)) in Hm'.
      destruct Hm' as [<-|Hm']; [lia|].
      apply StronglySorted_inv in Hs as [_ Hs].
      rewrite Forall_forall in Hs. specialize (Hs m' Hm').
      unfold Sql.id_after in Hs. apply Z.ltb_ge in Hs. exact Hs.
Qed.

Lemma outerjoin_leads_length (st : Store) :
  List.length (GetMessageRouter.outerjoin_leads st)
  = list_sum (map (lead_rows_of st) (sessions st)).
Proof.
  unfold GetMessageRouter.outerjoin_leads. rewrite length_flat_map.
  f_equal. apply map_ext. intro s. unfold lead_rows_of, leads_of.
  destruct (filter _ (leads st)) as [|l ls]; [reflexivity|].
  rewrite length_map. cbn [List.length]. lia.
Qed.

Lemma outerjoin_leads_sessions (st : Store) (s : Session.t) :
  In s (sessions st) ->
  In (Session.session_id s)
     (map (fun r => fst (fst r)) (GetMessageRouter.outerjoin_leads st)).
Proof.
  intro Hs. apply in_map_iff.
  unfold GetMessageRouter.outerjoin_leads.
  destruct (filter (Sql.lead_of (Session.session_id s)) (leads st))
    as [|l ls] eqn:E.
  - exists (Session.session_id s, None, None). split; [reflexivity|].
    apply in_flat_map. exists s. split; [exact Hs|]. rewrite E. now left.
  - exists (Session.session_id s, Lead.first_name l, Lead.last_name l).
    split; [reflexivity|].
    apply in_flat_map. exists s. split; [exact Hs|]. rewrite E. now left.
Qed.

(** X21. [get_leads_with_last_message] returns on every store, on one
    without sessions the empty list. Each session gives one row for each of
    its leads and one row when it has none, so no session is left out and a
    session with several leads shows several times. The [last_message] of a
    row is the text of a message of its session with the greatest [id], in
    whatever order the table is scanned; the placeholder stands for it when
    the session has no message and also when that text is empty. Nothing is
    changed. *)
Theorem get_leads_with_last_message_newest (w : World) :
  let st := pending (db w) in
  exists rows,
    GetMessageRouter.get_leads_with_last_message w = (Return rows, w)
    /\ List.length rows = list_sum (map (lead_rows_of st) (sessions st))
    /\ (forall s, In s (sessions st) ->
                  In (Session.session_id s)
                     (map GetMessageRouter.LeadRow.session_id rows))
    /\ Forall
         (fun r =>
            let msgs :=
              messages_of (GetMessageRouter.LeadRow.session_id r) st in
            (msgs = []
             /\ GetMessageRouter.LeadRow.last_message r = NO_MESSAGES_YET)
            \/ (exists m,
                  In m msgs
                  /\ (forall m', In m' msgs -> Message.id m' <= Message.id m)
                  /\ GetMessageRouter.LeadRow.last_message r
                     = if truthy (Message.text m) then Message.text m
                       else NO_MESSAGES_YET))
         rows.
Proof.
  intro st.
  set (row := fun session : pystr * option pystr * option pystr =>
                match session with
                | (sid, first, last) =>
                    GetMessageRouter.LeadRow.mk sid first last
                      (GetMessageRouter.or_placeholder
                         (GetMessageRouter.last_message_scalar sid st))
                end).
  exists (map row (GetMessageRouter.outerjoin_leads st)).
  split; [reflexivity|]. split; [|split].
  - rewrite length_map. apply outerjoin_leads_length.
  - intros s Hs. rewrite map_map.
    rewrite (map_ext _ (fun r => fst (fst r))).
    + now apply outerjoin_leads_sessions.
    + now intros [[sid first] last].
  - apply Forall_forall. intros r Hr.
    apply in_map_iff in Hr as [[[sid first] last] [<- _]].
    cbn [row GetMessageRouter.LeadRow.session_id
           GetMessageRouter.LeadRow.last_message].
    destruct (last_message_scalar_newest sid st)
      as [[Hnil Hnone] | [m [Hin [Hmax Hsome]]]].
    + left. split; [exact Hnil|]. now rewrite Hnone.
    + right. exists m. split; [exact Hin|]. split; [exact Hmax|].
      now rewrite Hsome.
Qed.

(** *** The two listings side by side *)







(* ===================================================================== *)
(** ** The schema of [messages/schemas.py]                                *)
(* ===================================================================== *)

Lemma role_of_value_iff (v : pystr) (r : MessageRole) :
  role_of_value v = Some r <-> v = role_value r.
Proof.
  split.
  - unfold role_of_value.
    destruct (str_eqb v (str "LEAD")) eqn:E1;
      [apply str_eqb_eq in E1; intro H; injection H as <-; exact E1|].
    destruct (str_eqb v (str "BOT")) eqn:E2;
      [apply str_eqb_eq in E2; intro H; injection H as <-; exact E2|].
    destruct (str_eqb v (str "MANAGER")) eqn:E3;
      [apply str_eqb_eq in E3; intro H; injection H as <-; exact E3|].
    discriminate.
  - intros ->. now destruct r.
Qed.

(** X23. The schema [MessageCreate] accepts a body exactly when its role
    is, letter for letter, one of LEAD, BOT and MANAGER and its text has a
    character that is not white space. The accepted model carries the text
    as it was sent, surrounding white space included, and the sender and
    the [session_id] unchanged. A refused body never reaches the handler:
    the route raises [ValueError] and the world is as it was. *)
Theorem model_validate_accepts (amqp : BrokerCall -> bool)
    (b : MessageCreateBody) (md : MessageCreate) (now : datetime)
    (w : World) :
  (model_validate b = inr md
   <-> body_role b = role_value (role md)
       /\ forallb isspace (body_text b) = false
       /\ text md = body_text b
       /\ sender md = body_sender b
       /\ session_id md = body_session_id b)
  /\ ((forall r, body_role b <> role_value r)
      \/ forallb isspace (body_text b) = true ->
      post_message amqp b now w = (Raise ValueError, w)).
Proof.
  destruct (validate_text_spec (body_text b)) as [Hblank Htext].
  split; [split|].
  - unfold model_validate.
    destruct (role_of_value (body_role b)) as [r|] eqn:Er; [|discriminate].
    destruct (forallb isspace (body_text b)) eqn:Es.
    + now rewrite (Hblank eq_refl).
    + rewrite (Htext eq_refl). intro H. injection H as <-.
      apply role_of_value_iff in Er. cbn [role text sender session_id].
      now repeat split.
  - intros [Hr [Hs [Ht [Hn Hi]]]]. unfold model_validate.
    apply role_of_value_iff in Hr. rewrite Hr, (Htext Hs).
    destruct md as [t s r i]. cbn [role text sender session_id] in *.
    now subst.
  - intro H. unfold post_message.
    assert (E : model_validate b = inl ValueError).
    { unfold model_validate.
      destruct (role_of_value (body_role b)) as [r|] eqn:Er;
        [|reflexivity].
      apply role_of_value_iff in Er. destruct H as [H|H].
      - now destruct (H r).
      - now rewrite (Hblank H). }
    now rewrite E.
Qed.

(* ===================================================================== *)
(** ** The producer of [rabbit/producer.py]                               *)
(* ===================================================================== *)

Ltac producer_cases amqp message :=
  unfold RabbitProducer.send_message, RabbitProducer.except_exception,
    RabbitProducer.pbind, RabbitProducer.with_connection,
    RabbitProducer.except_channel_closed, RabbitProducer.pcall,
    RabbitProducer.pret, RabbitProducer.praise;
  destruct (amqp (RabbitProducer.Connect RabbitProducer.URL)) eqn:Hconnect;
  destruct (amqp RabbitProducer.Channel) eqn:Hchannel;
  destruct (amqp (RabbitProducer.DeclarePassive RabbitProducer.QUEUE))
    eqn:Hdeclare;
  destruct (encode message) as [body|] eqn:Hbody;
  try destruct (amqp (RabbitProducer.PublishTo body PERSISTENT
                        RabbitProducer.QUEUE)) eqn:Hpublish.

(** X24. [send_message] of the producer never raises, whatever the broker
    answers and whatever the message is: every failure, of the connection,
    the channel, the declaration, the encoding or the publish, ends in a
    normal return, so a caller cannot tell a sent message from a lost one.
    It begins with one connection attempt, closes the connection whenever
    it was opened, makes no call after a refused connection, and publishes
    at most once. *)
Theorem send_message_never_raises
    (amqp : RabbitProducer.Call -> RabbitProducer.Answer) (message : pystr)
    (log : list RabbitProducer.Call) :
  exists calls,
    RabbitProducer.send_message amqp message log
    = (RabbitProducer.Returned tt, log ++ calls)
    /\ (published calls <= 1)%nat
    /\ (amqp (RabbitProducer.Connect RabbitProducer.URL)
        = RabbitProducer.Done ->
        exists inner,
          calls = RabbitProducer.Connect RabbitProducer.URL
                  :: inner ++ [RabbitProducer.Close]
          /\ ~ In RabbitProducer.Close inner)
    /\ (amqp (RabbitProducer.Connect RabbitProducer.URL)
        <> RabbitProducer.Done ->
        calls = [RabbitProducer.Connect RabbitProducer.URL]).
Proof.
  producer_cases amqp message;
    rewrite <- ?app_assoc; cbn [app];
    match goal with
    | |- exists calls, (_, _ ++ ?l) = _ /\ _ => exists l
    end;
    (split; [reflexivity|]);
    (split; [cbv; lia|]);
    (split; [intro H; try discriminate | intro H; try congruence]);
    match goal with
    | |- exists inner, _ :: ?l = _ /\ _ =>
        exists (removelast l); split; [reflexivity|];
        cbn; intuition discriminate
    end.
Qed.

(** X25. The producer publishes exactly when the broker accepts the
    connection, the channel and the passive declaration of [my_queue] and
    the message can be encoded; the calls are then, in this order, the
    connection, the channel, the declaration, one publish of the encoded
    message, persistent, with the queue name as routing key, and the close.
    When the declaration raises [ChannelClosed], as it does for a queue
    that does not exist, nothing is published and the connection is
    closed. *)
Theorem send_message_publishes_iff
    (amqp : RabbitProducer.Call -> RabbitProducer.Answer) (message : pystr) :
  let calls := snd (RabbitProducer.send_message amqp message []) in
  (published calls = 1%nat
   <-> producer_ready amqp /\ encode message <> None)
  /\ (forall body,
        producer_ready amqp -> encode message = Some body ->
        calls = [RabbitProducer.Connect RabbitProducer.URL;
                 RabbitProducer.Channel;
                 RabbitProducer.DeclarePassive RabbitProducer.QUEUE;
                 RabbitProducer.PublishTo body PERSISTENT
                   RabbitProducer.QUEUE;
                 RabbitProducer.Close])
  /\ (amqp (RabbitProducer.Connect RabbitProducer.URL) = RabbitProducer.Done ->
      amqp RabbitProducer.Channel = RabbitProducer.Done ->
      amqp (RabbitProducer.DeclarePassive RabbitProducer.QUEUE)
      = RabbitProducer.ChannelClosed ->
      calls = [RabbitProducer.Connect RabbitProducer.URL;
               RabbitProducer.Channel;
               RabbitProducer.DeclarePassive RabbitProducer.QUEUE;
               RabbitProducer.Close]).
Proof.
  cbv zeta. unfold producer_ready.
  producer_cases amqp message; cbn [app snd];
    (split; [split; [intro H; try (cbv in H; discriminate);
                     (split; [now repeat split | discriminate])
                    | intros [[H1 [H2 H3]] H4];
                      try discriminate; try congruence; reflexivity]
            | split; [intros b [H1 [H2 H3]] Hb;
                      try discriminate; try congruence
                     | intros H1 H2 H3; try discriminate; reflexivity]]).
Qed.

(* ===================================================================== *)
(** ** The handlers one after the other                                   *)
(* ===================================================================== *)

(** X26. A session the sweep found expired is unknown to the handlers
    that run after it: [receive_message] on its [session_id] answers 404
    and stores nothing, and [get_message_history] answers 404 as well,
    whatever messages the session had. *)
Theorem swept_session_is_unknown (amqp : BrokerCall -> bool)
    (md : MessageCreate) (now later : datetime) (st : Store)
    (log : list BrokerCall) (s : Session.t) :
  sessions_unique st ->
  In s (sessions st) ->
  Session.last_active s < now - SESSION_LIFETIME ->
  session_id md = Some (Session.session_id s) ->
  Session.session_id s <> [] ->
  let w' := snd (cleanup_expired_sessions now
                   {| db := fresh_session st; broker := log |}) in
  receive_message amqp md later w' = (Raise (HTTPException 404), w')
  /\ get_message_history (Session.session_id s) w'
     = (Raise (HTTPException 404), w').
Proof.
  intros [Hpk Hsid] Hs Hlt Hmd Hne w'. subst w'.
  rewrite cleanup_expired_sessions_run. cbn [snd].
  set (cutoff := now - SESSION_LIFETIME) in *.
  set (expired := filter (fun r => Session.last_active r <? cutoff)
                         (sessions st)).
  assert (Hin : In s expired).
  { apply filter_In. split; [exact Hs | now apply Z.ltb_lt]. }
  split.
  - apply (receive_message_not_found amqp md later _ Hmd Hne).
    cbn [db pending fresh_session]. apply find_none_filter.
    unfold expired. rewrite (@delete_all_expired_sessions cutoff st Hpk).
    rewrite filter_filter. apply filter_none. intros r Hr.
    destruct (Session.last_active r <? cutoff) eqn:E; [reflexivity|].
    cbn [negb andb]. apply str_eqb_neq. intro Heq.
    assert (r = s)
      by (apply (NoDup_map_inj Session.session_id _ _ _ Hsid Hr Hs Heq)).
    subst r. apply Z.ltb_lt in Hlt. congruence.
  - unfold get_message_history, bind, query, history_rows.
    cbn [db pending fresh_session].
    rewrite delete_all_messages, filter_filter.
    rewrite filter_none; [reflexivity|]. intros m _.
    destruct (Sql.in_session (Session.session_id s) m) eqn:E;
      [|apply andb_false_r].
    apply andb_false_iff. left. apply negb_false_iff.
    apply existsb_exists. now exists s.
Qed.

Lemma swept_session_is_unknown_witness :
  let w' := snd (cleanup_expired_sessions 200000000
                   {| db := fresh_session Sample.two_sessions;
                      broker := [] |}) in
  receive_message Sample.broker_up (Sample.hi LEAD (Some (str "old")))
    200000001 w'
  = (Raise (HTTPException 404), w')
  /\ get_message_history (str "old") w' = (Raise (HTTPException 404), w').
Proof.
  apply (@swept_session_is_unknown Sample.broker_up
           (Sample.hi LEAD (Some (str "old"))) 200000000 200000001
           Sample.two_sessions [] Sample.idle).
  - exact sample_two_sessions_unique.
  - now left.
  - vm_compute. reflexivity.
  - reflexivity.
  - discriminate.
Defined.



